(** * DolosAgent: a shallow embedding of the orchestration core

    Sources: src/src/core/agent.ts and src/unnamed/part_008 (DolosAgent,
    single-phase and two-phase variants), src/unnamed/part_009 (Memory),
    src/src/core/loop-detector.ts (LoopDetector), src/src/core/planning.ts
    (PlanningEngine), src/src/core/logger.ts (Logger.wrapText),
    src/src/core/tool-registry.ts (ToolRegistry),
    src/src/tools/browser/type.tool.ts (the type tool), src/src/types/*.ts
    (data model).

    Strings are Stdlib strings over 8-bit [ascii]; JS numbers that the code
    only ever holds as integers (coordinates after [Math.round], step
    counters, token counts) are [Z] or [N]; the numbers the loop detector
    computes from action parameters are exact rationals [Q]. Numbers in a
    tool call's parameters are integral ([PNum]); a non-integral coordinate
    reaches the loop detector as a numeric string. *)

From Stdlib Require Import ZArith QArith Qabs Ascii String DecimalString DecimalPos DecimalZ.
From stdpp Require Import base gmap strings list.

Set Warnings "-notation-for-abbreviation -register-all".

(* ------------------------------------------------------------------ *)
(** ** JSON.stringify, for the values the code serialises *)

Module Json.

Notation chars := (list ascii).

Definition dq : ascii := ascii_of_nat 34.
Definition bs : ascii := ascii_of_nat 92.

Definition lit (s : string) : chars := list_ascii_of_string s.

Definition hexDigit (n : nat) : ascii :=
  if Nat.ltb n 10 then ascii_of_nat (48 + n) else ascii_of_nat (87 + n).

(** QuoteJSONString, one code unit. *)
Definition escapeChar (c : ascii) : chars :=
  let n := nat_of_ascii c in
  if Nat.eqb n 34 then [bs; dq]
  else if Nat.eqb n 92 then [bs; bs]
  else if Nat.eqb n 8 then [bs; "b"%char]
  else if Nat.eqb n 12 then [bs; "f"%char]
  else if Nat.eqb n 10 then [bs; "n"%char]
  else if Nat.eqb n 13 then [bs; "r"%char]
  else if Nat.eqb n 9 then [bs; "t"%char]
  else if Nat.ltb n 32 then
    [bs; "u"%char; "0"%char; "0"%char; hexDigit (n / 16); hexDigit (n mod 16)]
  else [c].

Definition quote (s : string) : chars :=
  dq :: flat_map escapeChar (list_ascii_of_string s) ++ [dq].

(** Number::toString for an integral number. *)
Definition showZ (z : Z) : string := NilZero.string_of_int (Z.to_int z).
Definition number (z : Z) : chars := list_ascii_of_string (showZ z).

(** [Array.prototype.join(',')] *)
Fixpoint joinComma (l : list chars) : chars :=
  match l with
  | [] => []
  | [a] => a
  | a :: t => a ++ ","%char :: joinComma t
  end.

Definition obj (entries : list chars) : chars :=
  "{"%char :: joinComma entries ++ ["}"%char].
Definition arr (items : list chars) : chars :=
  "["%char :: joinComma items ++ ["]"%char].
Definition entry (k : string) (v : chars) : chars := quote k ++ ":"%char :: v.

(** Flat primitive values: the tool parameter schemas are flat
    key-to-primitive maps. *)
Inductive Prim :=
| PStr (s : string)
| PNum (z : Z)
| PBool (b : bool)
| PNull.

Definition stringifyPrim (p : Prim) : chars :=
  match p with
  | PStr s => quote s
  | PNum z => number z
  | PBool true => lit "true"
  | PBool false => lit "false"
  | PNull => lit "null"
  end.

(** A parameter object, in the insertion order of its keys. *)
Definition Params := list (string * Prim).

Definition stringifyParams (p : Params) : string :=
  string_of_list_ascii (obj (map (fun kv => entry kv.1 (stringifyPrim kv.2)) p)).

Fixpoint lookupKey (k : string) (p : Params) : option Prim :=
  match p with
  | [] => None
  | (k', v) :: t => if String.eqb k k' then Some v else lookupKey k t
  end.

(** Arbitrary structured data ([any]) *)
Inductive JVal :=
| JPrim (p : Prim)
| JArr (l : list JVal)
| JObj (l : list (string * JVal)).

Definition truthyPrim (p : Prim) : bool :=
  match p with
  | PStr s => negb (String.eqb s "")
  | PNum z => negb (Z.eqb z 0)
  | PBool b => b
  | PNull => false
  end.

Definition truthy (v : JVal) : bool :=
  match v with
  | JPrim p => truthyPrim p
  | _ => true
  end.

End Json.

Import Json.

(* ------------------------------------------------------------------ *)
(** ** Data model (src/src/types/agent.types.ts, memory.types.ts) *)

Record InteractiveElement := mkElement {
  tag : string;
  type : option string;
  text : option string;
  placeholder : option string;
  ariaLabel : option string;
  role : option string;
  x : Z;
  y : Z;
  width : Z;
  height : Z;
  isVisible : bool
}.

Record BrowserState := mkBrowserState {
  url : string;
  title : string;
  screenshot : string;
  elements : list InteractiveElement;
  viewportSize : Z * Z
}.

Module ToolResult.
Record t := mk {
  success : bool;
  data : option JVal;
  error : option string;
  observation : option string
}.
End ToolResult.

(** The [timestamp] field of every step is [Date.now()]; no claim reads it
    and it is left out. *)
Record ActionStep := mkAction {
  stepNumber : Z;
  toolName : string;
  parameters : Params;
  reasoning : string;
  observation : option BrowserState;
  result : option ToolResult.t
}.

Inductive MemoryStep :=
| TaskStep (task : string)
| ActionS (a : ActionStep)
| PlanningStep (n : Z) (currentFacts nextSteps : list string)
| VisionAnalysisStep (n : Z) (analysis : string) (obs : BrowserState).

(** CoreMessage of the AI SDK *)
Inductive ToolResultValue :=
| RText (s : string)
| RData (d : JVal).

Inductive ContentPart :=
| TextPart (text : string)
| ImagePart (image mimeType : string)
| ToolCallPart (toolCallId toolName : string) (args : Params)
| ToolResultPart (toolCallId toolName : string) (result : ToolResultValue).

Inductive Content :=
| CText (s : string)
| CParts (parts : list ContentPart).

Record CoreMessage := mkMsg { msgRole : string; msgContent : Content }.

(* ------------------------------------------------------------------ *)
(** ** Memory (src/unnamed/part_009) *)

Module Memory.

Record t := mk { steps : list MemoryStep; systemPrompt : string }.

(** The prompt text itself is long and fixed; its wording is elided. *)
Definition getDefaultSystemPrompt : string :=
  "You are an intelligent browser automation agent. Your goal is to complete tasks by interacting with web pages using tool calls.".

(** [constructor(systemPrompt?)] *)
Definition create (sp : option string) : t :=
  mk [] (match sp with
         | Some s => if String.eqb s "" then getDefaultSystemPrompt else s
         | None => getDefaultSystemPrompt
         end).

Definition push (m : t) (s : MemoryStep) : t := mk (steps m ++ [s]) (systemPrompt m).

Definition addTaskStep (m : t) (task : string) : t := push m (TaskStep task).
Definition addActionStep (m : t) (a : ActionStep) : t := push m (ActionS a).
Definition addPlanningStep (m : t) (n : Z) (facts next : list string) : t :=
  push m (PlanningStep n facts next).
Definition addVisionAnalysisStep (m : t) (n : Z) (analysis : string) (obs : BrowserState) : t :=
  push m (VisionAnalysisStep n analysis obs).

Definition actionsOf (l : list MemoryStep) : list ActionStep :=
  omap (fun s => match s with ActionS a => Some a | _ => None end) l.

(** [Array.prototype.slice(start)] *)
Definition slice {A} (l : list A) (start : Z) : list A :=
  let len := Z.of_nat (length l) in
  let k := if Z.ltb start 0 then Z.max (len + start) 0 else Z.min start len in
  drop (Z.to_nat k) l.

Definition getRecentActions (m : t) (count : Z) : list ActionStep :=
  slice (actionsOf (steps m)) (- count).

(** [getLastObservation]: the scan from the last action step backwards. *)
Fixpoint firstObservation (l : list ActionStep) : option BrowserState :=
  match l with
  | [] => None
  | a :: r => match observation a with Some o => Some o | None => firstObservation r end
  end.

Definition getLastObservation (m : t) : option BrowserState :=
  firstObservation (rev (actionsOf (steps m))).

Definition toolCallId (a : ActionStep) : string :=
  toolName a +:+ "-" +:+ showZ (stepNumber a).

(** [step.result.observation || step.result.data || 'Success'] *)
Definition resultValue (r : ToolResult.t) : ToolResultValue :=
  let fallback :=
    match ToolResult.data r with
    | Some d => if truthy d then RData d else RText "Success"
    | None => RText "Success"
    end in
  match ToolResult.observation r with
  | Some s => if String.eqb s "" then fallback else RText s
  | None => fallback
  end.

Definition stepMessages (s : MemoryStep) : list CoreMessage :=
  match s with
  | TaskStep task => [mkMsg "user" (CText task)]
  | ActionS a =>
      match result a with
      | Some r =>
          if ToolResult.success r then
            [mkMsg "assistant" (CParts [ToolCallPart (toolCallId a) (toolName a) (parameters a)]);
             mkMsg "tool" (CParts [ToolResultPart (toolCallId a) (toolName a) (resultValue r)])]
          else []
      | None => []
      end
  | _ => []
  end.

Definition toMessages (m : t) : list CoreMessage := flat_map stepMessages (steps m).

Definition clear (m : t) : t := mk [] (systemPrompt m).

End Memory.

(* ------------------------------------------------------------------ *)
(** ** PlanningEngine.extractSection (src/src/core/planning.ts) *)

Module Planning.

Fixpoint prefixb (p s : chars) : bool :=
  match p, s with
  | [], _ => true
  | c :: p', d :: s' => Ascii.eqb c d && prefixb p' s'
  | _ :: _, [] => false
  end.

(** The lookahead [(?=NEXT STEPS:|CONTINUE:|$)]; without the [m] flag [$]
    is the end of the input. *)
Definition stopAt (s : chars) : bool :=
  prefixb (lit "NEXT STEPS:") s || prefixb (lit "CONTINUE:") s ||
  match s with [] => true | _ => false end.

(** The lazy [[\s\S]*?]: the shortest prefix after which the lookahead
    holds. *)
Fixpoint lazyBody (s : chars) : chars :=
  if stopAt s then []
  else match s with
       | [] => []
       | c :: s' => c :: lazyBody s'
       end.

(** [text.match(new RegExp(`${section}:[\s\S]*?(?=...)`))]: the leftmost
    start at which the literal header matches (the section names passed,
    FACTS and NEXT STEPS, hold no metacharacters), then the lazy body.
    The body part always succeeds, so no other start is tried. *)
Fixpoint regexMatch (hdr s : chars) : option chars :=
  if prefixb hdr s then Some (hdr ++ lazyBody (drop (length hdr) s))
  else match s with
       | [] => None
       | _ :: s' => regexMatch hdr s'
       end.

Definition newline : ascii := ascii_of_nat 10.

(** [String.prototype.split('\n')] *)
Fixpoint splitNl (s : chars) : list chars :=
  match s with
  | [] => [[]]
  | c :: t =>
      if Ascii.eqb c newline then [] :: splitNl t
      else match splitNl t with
           | [] => [[c]]
           | h :: r => (c :: h) :: r
           end
  end.

(** WhiteSpace and LineTerminator code units in the 8-bit range. *)
Definition isWs (c : ascii) : bool :=
  let n := nat_of_ascii c in
  Nat.eqb n 9 || Nat.eqb n 10 || Nat.eqb n 11 || Nat.eqb n 12 || Nat.eqb n 13 ||
  Nat.eqb n 32 || Nat.eqb n 160.

Fixpoint trimStart (s : chars) : chars :=
  match s with
  | [] => []
  | c :: t => if isWs c then trimStart t else s
  end.

Fixpoint trimEnd (s : chars) : chars :=
  match s with
  | [] => []
  | c :: t =>
      match trimEnd t with
      | [] => if isWs c then [] else [c]
      | r => c :: r
      end
  end.

Definition trim (s : chars) : chars := trimEnd (trimStart s).

Definition startsWithDash (s : chars) : bool :=
  match s with
  | c :: _ => Ascii.eqb c "-"%char
  | [] => false
  end.

Definition extractSection (text section : string) : list string :=
  match regexMatch (lit section ++ [":"%char]) (lit text) with
  | None => []
  | Some m =>
      map (fun line => string_of_list_ascii (drop 2 (trim line)))
          (List.filter (fun line => startsWithDash (trim line)) (splitNl m))
  end.

End Planning.

(* ------------------------------------------------------------------ *)
(** ** LoopDetector (src/src/core/loop-detector.ts) *)

Module LoopDetector.

Definition maxRepetitions : Z := 3.

(** *** ToNumber on the operands of [-]

    JS numbers are read as exact rationals: the rounding to binary64 (and
    the overflow of huge literals to Infinity) is not modelled. [None]
    stands for NaN and for the infinities, the values with which the
    comparison [Math.abs(d) < 10] is false. *)

Definition digitValue (radix : Z) (c : ascii) : option Z :=
  let n := Z.of_nat (nat_of_ascii c) in
  let d := if (48 <=? n)%Z && (n <=? 57)%Z then (n - 48)%Z
           else if (97 <=? n)%Z && (n <=? 122)%Z then (n - 87)%Z
           else if (65 <=? n)%Z && (n <=? 90)%Z then (n - 55)%Z
           else 36%Z in
  if (d <? radix)%Z then Some d else None.

Definition isDecimalDigit (c : ascii) : bool :=
  match digitValue 10 c with Some _ => true | None => false end.

(** The value of a sequence of digits, [None] if one is no digit. *)
Fixpoint digitsValue (radix acc : Z) (s : chars) : option Z :=
  match s with
  | [] => Some acc
  | c :: t =>
      match digitValue radix c with
      | Some d => digitsValue radix (acc * radix + d)%Z t
      | None => None
      end
  end.

(** The longest prefix of decimal digits, and the rest. *)
Fixpoint spanDigits (s : chars) : chars * chars :=
  match s with
  | [] => ([], [])
  | c :: t =>
      if isDecimalDigit c then let '(d, r) := spanDigits t in (c :: d, r)
      else ([], s)
  end.

(** [m * 10^e] *)
Definition scale10 (m e : Z) : Q :=
  if (0 <=? e)%Z then inject_Z (m * 10 ^ e) else Qmake m (Z.to_pos (10 ^ (- e))).

(** ExponentPart without its [e]: an optional sign, then digits. *)
Definition exponentValue (s : chars) : option Z :=
  match s with
  | c :: t =>
      if Ascii.eqb c "+"%char then
        match t with [] => None | _ => digitsValue 10 0 t end
      else if Ascii.eqb c "-"%char then
        match t with [] => None | _ => option_map Z.opp (digitsValue 10 0 t) end
      else digitsValue 10 0 s
  | [] => None
  end.

(** StrUnsignedDecimalLiteral other than [Infinity]:
    [DecimalDigits . DecimalDigits? ExponentPart?],
    [. DecimalDigits ExponentPart?] or [DecimalDigits ExponentPart?]. *)
Definition unsignedDecimalValue (s : chars) : option Q :=
  let '(ip, r1) := spanDigits s in
  let '(fp, r2) :=
    match r1 with
    | c :: t => if Ascii.eqb c "."%char then spanDigits t else ([], r1)
    | [] => ([], [])
    end in
  let e :=
    match r2 with
    | [] => Some 0%Z
    | c :: t =>
        if Ascii.eqb c "e"%char || Ascii.eqb c "E"%char then exponentValue t else None
    end in
  match ip ++ fp, e with
  | [], _ => None
  | ds, Some e =>
      match digitsValue 10 0 ds with
      | Some m => Some (scale10 m (e - Z.of_nat (length fp))%Z)
      | None => None
      end
  | _, None => None
  end.

Definition unsignedValue (s : chars) : option Q :=
  if List.list_eq_dec ascii_dec s (lit "Infinity") then None else unsignedDecimalValue s.

(** NonDecimalIntegerLiteral after its [0x], [0o] or [0b]. *)
Definition nonDecimalValue (radix : Z) (s : chars) : option Q :=
  match s with
  | [] => None
  | _ => option_map inject_Z (digitsValue radix 0 s)
  end.

Definition radixOf (c : ascii) : option Z :=
  if Ascii.eqb c "x"%char || Ascii.eqb c "X"%char then Some 16%Z
  else if Ascii.eqb c "o"%char || Ascii.eqb c "O"%char then Some 8%Z
  else if Ascii.eqb c "b"%char || Ascii.eqb c "B"%char then Some 2%Z
  else None.

(** StringToNumber: the string without its leading and trailing white
    space is empty ([0]), a NonDecimalIntegerLiteral, or an optionally
    signed StrUnsignedDecimalLiteral; anything else is NaN. *)
Definition stringToNumber (str : string) : option Q :=
  match Planning.trim (list_ascii_of_string str) with
  | [] => Some 0%Q
  | c :: t =>
      match t with
      | r :: ds =>
          if Ascii.eqb c "0"%char then
            match radixOf r with
            | Some radix => nonDecimalValue radix ds
            | None => unsignedValue (c :: t)
            end
          else if Ascii.eqb c "+"%char then unsignedValue t
          else if Ascii.eqb c "-"%char then option_map Qopp (unsignedValue t)
          else unsignedValue (c :: t)
      | [] =>
          if Ascii.eqb c "+"%char || Ascii.eqb c "-"%char then None
          else unsignedValue [c]
      end
  end.

(** [(a.parameters.k || 0)] as an operand of [-]: a falsy or missing value
    is [0], then ToNumber: [true] is [1], a number is itself and a
    non-empty string is read by [stringToNumber]. *)
Definition coord (p : Params) (k : string) : option Q :=
  match lookupKey k p with
  | None => Some 0%Q
  | Some v =>
      if truthyPrim v then
        match v with
        | PNum z => Some (inject_Z z)
        | PBool _ => Some 1%Q
        | PStr s => stringToNumber s
        | PNull => Some 0%Q
        end
      else Some 0%Q
  end.

(** [Math.abs(a - b) < 10]; a comparison with NaN is false, and so is one
    with an infinite difference. *)
Definition diffLt10 (a b : option Q) : bool :=
  match a, b with
  | Some a, Some b => negb (Qle_bool 10 (Qabs (a - b)))
  | _, _ => false
  end.

Definition actionsAreSimilar (a b : ActionStep) : bool :=
  if negb (String.eqb (toolName a) (toolName b)) then false
  else if String.eqb (toolName a) "click" || String.eqb (toolName a) "type" then
    diffLt10 (coord (parameters a) "x") (coord (parameters b) "x") &&
    diffLt10 (coord (parameters a) "y") (coord (parameters b) "y")
  else String.eqb (stringifyParams (parameters a)) (stringifyParams (parameters b)).

Record LoopCheck := mkLoopCheck { isLooping : bool; message : option string }.

Definition detectLoop (recentActions : list ActionStep) : LoopCheck :=
  if Nat.ltb (length recentActions) 2 then mkLoopCheck false None
  else
    match last recentActions with
    | None => mkLoopCheck false None
    | Some lastAction =>
        let repetitionCount :=
          Z.of_nat (length (List.filter (fun a => actionsAreSimilar a lastAction)
                                        (Memory.slice recentActions (-5)))) in
        if Z.leb maxRepetitions repetitionCount then
          mkLoopCheck true
            (Some ("LOOP DETECTED: Repeated " +:+ toolName lastAction +:+ " " +:+
                   showZ repetitionCount +:+ " times. Try a different approach!"))
        else mkLoopCheck false None
    end.

End LoopDetector.

(* ------------------------------------------------------------------ *)
(** ** State fingerprint (DolosAgent.computeStateHash) *)

Module Fingerprint.

Definition elementJson (e : InteractiveElement) : chars :=
  obj ([entry "tag" (quote (tag e))] ++
       match text e with
       | Some t => [entry "text" (quote (substring 0 50 t))]
       | None => []   (* [text: undefined] is omitted by JSON.stringify *)
       end ++
       [entry "x" (number (x e)); entry "y" (number (y e))]).

Definition computeStateHash (observation : BrowserState) : string :=
  string_of_list_ascii
    (obj [entry "url" (quote (url observation));
          entry "title" (quote (title observation));
          entry "elementCount" (number (Z.of_nat (length (elements observation))));
          entry "elements" (arr (map elementJson (take 20 (elements observation))))]).

End Fingerprint.

(* ------------------------------------------------------------------ *)
(** ** DolosAgent (src/src/core/agent.ts, src/unnamed/part_008) *)

Module Agent.

Inductive Exc (A : Type) :=
| Ok (a : A)
| Throw (e : string).
Arguments Ok {A} a.
Arguments Throw {A} e.

Record Usage := mkUsage { inputTokens : N; outputTokens : N; totalTokens : N }.

Definition zeroUsage : Usage := mkUsage 0 0 0.

(** [u.inputTokens += d.inputTokens; u.outputTokens += ...; u.totalTokens += ...] *)
Definition addUsage (u d : Usage) : Usage :=
  mkUsage (inputTokens u + inputTokens d)%N (outputTokens u + outputTokens d)%N
          (totalTokens u + totalTokens d)%N.

Record ToolCall := mkToolCall { tcName : string; tcArgs : Params }.

(** Result of [AIClient.generate]; an absent [text] is [""], an absent
    [toolCalls] is [[]]. *)
Record GenerateResult := mkGenerateResult {
  genText : string;
  genToolCalls : list ToolCall;
  finishReason : string;
  usage : Usage
}.

Inductive ClientKind := LogicClient | VisionClient.

Record Request := mkRequest {
  reqClient : ClientKind;
  reqSystem : string;
  reqMessages : list CoreMessage;
  reqTools : bool
}.

(** [SinglePhase]: src/src/core/agent.ts (one multimodal call, on the vision
    client when one is configured).  [TwoPhase]: src/unnamed/part_008 (a
    vision call, then a logic call; the vision client is mandatory). *)
Inductive Variant := SinglePhase | TwoPhase.

Record AgentConfig := mkConfig {
  maxSteps : Z;
  planningInterval : Z;
  networkWait : Z;
  variant : Variant;
  hasVisionClient : bool
}.

(** Ghost record of each decision call: the step, its snapshot, the
    request sent and the result received (the code logs these). *)
Record StepTrace := mkStepTrace {
  trStep : Z;
  trObs : BrowserState;
  trRequest : Request;
  trResult : GenerateResult
}.

Record AgentState := mkState {
  memory : Memory.t;
  stepCount : Z;
  totalUsage : Usage;
  logicUsage : Usage;
  visionUsage : Usage;
  lastStateHash : option string;
  lastToolResults : gmap string string;
  trace : list StepTrace
}.

(** Fields set by the constructor; [initialize()] is assumed done. *)
Definition newAgentState : AgentState :=
  mkState (Memory.create None) 0 zeroUsage zeroUsage zeroUsage None ∅ [].

Definition setMemory (st : AgentState) (m : Memory.t) : AgentState :=
  mkState m (stepCount st) (totalUsage st) (logicUsage st) (visionUsage st)
          (lastStateHash st) (lastToolResults st) (trace st).
Definition setStepCount (st : AgentState) (n : Z) : AgentState :=
  mkState (memory st) n (totalUsage st) (logicUsage st) (visionUsage st)
          (lastStateHash st) (lastToolResults st) (trace st).
Definition setLastStateHash (st : AgentState) (h : option string) : AgentState :=
  mkState (memory st) (stepCount st) (totalUsage st) (logicUsage st) (visionUsage st)
          h (lastToolResults st) (trace st).
Definition setLastToolResults (st : AgentState) (m : gmap string string) : AgentState :=
  mkState (memory st) (stepCount st) (totalUsage st) (logicUsage st) (visionUsage st)
          (lastStateHash st) m (trace st).
Definition addTrace (st : AgentState) (e : StepTrace) : AgentState :=
  mkState (memory st) (stepCount st) (totalUsage st) (logicUsage st) (visionUsage st)
          (lastStateHash st) (lastToolResults st) (trace st ++ [e]).

(** Token accounting: a vision call goes to [visionUsage], any other to
    [logicUsage], and each to [totalUsage] as well. *)
Definition addVisionTokens (st : AgentState) (u : Usage) : AgentState :=
  mkState (memory st) (stepCount st) (addUsage (totalUsage st) u) (logicUsage st)
          (addUsage (visionUsage st) u) (lastStateHash st) (lastToolResults st) (trace st).
Definition addLogicTokens (st : AgentState) (u : Usage) : AgentState :=
  mkState (memory st) (stepCount st) (addUsage (totalUsage st) u) (addUsage (logicUsage st) u)
          (visionUsage st) (lastStateHash st) (lastToolResults st) (trace st).

(** [this.lastToolResults.get(name) || `${name} executed`] *)
Definition readCaptured (st : AgentState) (name : string) : string :=
  match lastToolResults st !! name with
  | Some r => if String.eqb r "" then name +:+ " executed" else r
  | None => name +:+ " executed"
  end.

(** [toolCall.args.result || 'Task completed']; the done schema declares
    [result] a string. *)
Definition doneAnswer (args : Params) : string :=
  match lookupKey "result" args with
  | Some (PStr s) => if String.eqb s "" then "Task completed" else s
  | _ => "Task completed"
  end.

Definition nl : string := String Planning.newline EmptyString.
Definition dqs : string := String dq EmptyString.

Fixpoint joinWith (sep : string) (l : list string) : string :=
  match l with
  | [] => ""
  | [a] => a
  | a :: t => a +:+ sep +:+ joinWith sep t
  end.

(** [a || b] on optional strings *)
Definition orStr (a : option string) (b : string) : string :=
  match a with
  | Some s => if String.eqb s "" then b else s
  | None => b
  end.

(** BrowserObserver.formatStateAsText (src/src/core/observation.ts) *)
Definition formatStateAsText (state : BrowserState) : string :=
  let visibleElements := List.filter isVisible (elements state) in
  let line idx el :=
    let label := orStr (text el) (orStr (placeholder el) (orStr (ariaLabel el)
                   (orStr (role el) (tag el)))) in
    let truncatedLabel :=
      if Nat.ltb 60 (String.length label) then substring 0 57 label +:+ "..." else label in
    "  [" +:+ showZ (Z.of_nat idx + 1) +:+ "] " +:+ tag el +:+
    (match type el with
     | Some t => if String.eqb t "" then "" else "[" +:+ t +:+ "]"
     | None => "" end) +:+
    " at (" +:+ showZ (x el) +:+ ", " +:+ showZ (y el) +:+ ") size:" +:+
    showZ (width el) +:+ "x" +:+ showZ (height el) +:+ " - " +:+ dqs +:+ truncatedLabel +:+ dqs in
  let lines :=
    ["URL: " +:+ url state; "Title: " +:+ title state;
     "Viewport: " +:+ showZ (viewportSize state).1 +:+ "x" +:+ showZ (viewportSize state).2;
     nl +:+ "Interactive Elements (" +:+ showZ (Z.of_nat (length visibleElements)) +:+
       " visible):" +:+ nl] ++
    imap line (take 50 visibleElements) ++
    (if Nat.ltb 50 (length visibleElements)
     then ["  ... and " +:+ showZ (Z.of_nat (length visibleElements) - 50) +:+ " more elements"]
     else []) in
  joinWith nl lines.

Definition taskReminder (task : string) : string :=
  if String.eqb task "" then "" else nl +:+ "CURRENT TASK: " +:+ task +:+ nl +:+ nl.

(** The two warning texts: agent.ts and part_008. *)
Definition stateWarningText (v : Variant) : string :=
  match v with
  | SinglePhase =>
      nl +:+ "⚠️  WARNING: The page state has NOT changed since your last action. This may mean:" +:+ nl +:+
      "- A chat agent is still typing/thinking and you should wait" +:+ nl +:+
      "- A response is loading and needs more time" +:+ nl +:+
      "- Your last action had no effect" +:+ nl +:+
      "Consider using the wait() tool to give the page more time to respond." +:+ nl +:+ nl
  | TwoPhase =>
      nl +:+ "WARNING: The page state has NOT changed since your last action. This may mean:" +:+ nl +:+
      "- A chat agent is still typing/thinking" +:+ nl +:+
      "- A response is loading and needs more time" +:+ nl +:+
      "- Your last action had no effect" +:+ nl +:+
      "The next screenshot will show if the page updates." +:+ nl +:+ nl
  end.

(** [if (!stateChanged && this.stepCount > 1) stateWarning = ...] *)
Definition stateWarning (v : Variant) (st : AgentState) (stateChanged : bool) : string :=
  if negb stateChanged && Z.ltb 1 (stepCount st) then stateWarningText v else "".

Definition nextActionQuestion : string :=
  "Based on this information, what action should you take next to complete the CURRENT task?".

(** The text after the warning in the decision prompt. *)
Definition observationBody (v : Variant) (observation : BrowserState) (visionAnalysis : string) : string :=
  match v with
  | SinglePhase =>
      "Current Browser State:" +:+ nl +:+ formatStateAsText observation +:+ nl +:+ nl +:+
      nextActionQuestion
  | TwoPhase =>
      "Current Browser State:" +:+ nl +:+ "URL: " +:+ url observation +:+ nl +:+
      "Title: " +:+ title observation +:+ nl +:+
      "Viewport: " +:+ showZ (viewportSize observation).1 +:+ "x" +:+
      showZ (viewportSize observation).2 +:+ nl +:+ nl +:+
      "VISION ANALYSIS:" +:+ nl +:+ visionAnalysis +:+ nl +:+ nl +:+ nextActionQuestion
  end.

(** [buildMessages] (agent.ts) and [buildLogicMessages] (part_008). *)
Definition buildMessages (v : Variant) (st : AgentState) (observation : BrowserState)
    (visionAnalysis task : string) (stateChanged : bool) : list CoreMessage :=
  let textOf := taskReminder task +:+ stateWarning v st stateChanged +:+
                observationBody v observation visionAnalysis in
  Memory.toMessages (memory st) ++
  [match v with
   | SinglePhase =>
       mkMsg "user" (CParts [TextPart textOf; ImagePart (screenshot observation) "image/png"])
   | TwoPhase => mkMsg "user" (CText textOf)
   end].

(** The user text of the last message of a request. *)
Definition promptText (req : Request) : option string :=
  match last (reqMessages req) with
  | Some (mkMsg _ (CParts (TextPart s :: _))) => Some s
  | Some (mkMsg _ (CText s)) => Some s
  | _ => None
  end.

(** [executePlanningPhase] prompt (src/src/core/planning.ts, second
    class); the fixed instruction wording is abbreviated. *)
Definition planningPrompt (observation : BrowserState) (stepNo : Z) (task : string)
    (recent : list ActionStep) : string :=
  nl +:+ "You are at step " +:+ showZ stepNo +:+ ". Reflect on your progress:" +:+
  (if String.eqb task "" then "" else nl +:+ nl +:+ "Your Current Task: " +:+ task) +:+ nl +:+ nl +:+
  "Current Page: " +:+ title observation +:+ " (" +:+ url observation +:+ ")" +:+ nl +:+ nl +:+
  "RECENT ACTION HISTORY (last " +:+ showZ (Z.of_nat (length recent)) +:+ " steps):" +:+ nl +:+
  joinWith (nl +:+ nl)
    (map (fun a => "Step " +:+ showZ (stepNumber a) +:+ ": " +:+ toolName a +:+ "(" +:+
                   stringifyParams (parameters a) +:+ ")") recent) +:+ nl +:+ nl +:+
  "FACTS:" +:+ nl +:+ "- [fact]" +:+ nl +:+ nl +:+ "NEXT STEPS:" +:+ nl +:+ "- [step]" +:+ nl +:+ nl +:+
  "CONTINUE: yes/no" +:+ nl.

(** [analyzePageWithVision] prompt (part_008); the fixed instruction
    wording is abbreviated. *)
Definition visionPrompt (observation : BrowserState) (task : string) (recent : list ActionStep) : string :=
  "You are a vision analysis agent helping with browser automation." +:+ nl +:+ nl +:+
  (if String.eqb task "" then "" else "OVERALL TASK: " +:+ task +:+ nl +:+ nl) +:+
  (if Nat.eqb (length recent) 0 then "RECENT ACTIONS: None (first step)" +:+ nl +:+ nl
   else "RECENT ACTIONS TAKEN:" +:+ nl +:+
        joinWith nl (map (fun a => "- Step " +:+ showZ (stepNumber a) +:+ ": " +:+ toolName a +:+
                          "(" +:+ stringifyParams (parameters a) +:+ ") -> " +:+
                          orStr (match result a with Some r => ToolResult.observation r | None => None end)
                                "completed") recent) +:+ nl +:+ nl) +:+
  "CURRENT PAGE:" +:+ nl +:+ "- URL: " +:+ url observation +:+ nl +:+ "- Title: " +:+ title observation.

Definition planningSystem : string := "You are a planning assistant for a browser automation agent. Use the screenshot to understand the current page state.".
Definition visionSystem : string := "You are a visual observer for browser automation.".

(** [this.stepCount % this.config.planningInterval! === 0]; JS [%] is the
    truncated remainder and [x % 0] is NaN. *)
Definition planningDue (cfg : AgentConfig) (n : Z) : bool :=
  if Z.eqb (planningInterval cfg) 0 then false else Z.eqb (Z.rem n (planningInterval cfg)) 0.

(** Planning usage: agent.ts books it as vision, part_008 as logic. *)
Definition addPlanningUsage (cfg : AgentConfig) (st : AgentState) (u : Usage) : AgentState :=
  match variant cfg with
  | SinglePhase => addVisionTokens st u
  | TwoPhase => addLogicTokens st u
  end.

Section Run.

(** The world: the browser page and the language-model service. *)
Variable World : Type.
Variable captureState : World -> World * Exc BrowserState.
Variable generate : Request -> World -> World * Exc GenerateResult.
(** The original [execute] of each registered tool. *)
Variable toolImpl : string -> Params -> World -> World * Exc string.
Variable waitForLoadState : World -> World * Exc unit.
Variable waitForTimeout : Z -> World -> World * Exc unit.
Variable goto : string -> World -> World * Exc unit.

Definition M (A : Type) : Type := World * AgentState -> (World * AgentState) * Exc A.

#[export] Instance M_ret : MRet M := fun A a s => (s, Ok a).
#[export] Instance M_bind : MBind M := fun A B k m s =>
  match m s with
  | (s', Ok a) => k a s'
  | (s', Throw e) => (s', Throw e)
  end.

Definition getSt : M AgentState := fun s => (s, Ok s.2).
Definition modifySt (f : AgentState -> AgentState) : M unit := fun s => ((s.1, f s.2), Ok tt).
Definition liftW {A} (f : World -> World * Exc A) : M A :=
  fun s => let '(w', r) := f s.1 in ((w', s.2), r).

Definition hasStateChanged (observation : BrowserState) : M bool :=
  st ← getSt;
  let currentHash := Fingerprint.computeStateHash observation in
  let changed := match lastStateHash st with
                 | Some h => negb (String.eqb currentHash h)
                 | None => true
                 end in
  modifySt (fun st => setLastStateHash st (Some currentHash));;
  mret changed.

Definition wrapToolWithResultCapture (name : string)
    (originalExecute : Params -> World -> World * Exc string) (args : Params) : M string :=
  r ← liftW (originalExecute args);
  modifySt (fun st => setLastToolResults st (<[name := r]> (lastToolResults st)));;
  mret r.

(** The AI SDK runs the [execute] of each returned tool call (here in
    order) before [generate] resolves; a throwing [execute] rejects it. *)
Fixpoint executeToolCalls (tcs : list ToolCall) : M unit :=
  match tcs with
  | [] => mret tt
  | tc :: rest =>
      wrapToolWithResultCapture (tcName tc) (toolImpl (tcName tc)) (tcArgs tc);;
      executeToolCalls rest
  end.

Definition generateCall (req : Request) : M GenerateResult :=
  r ← liftW (generate req);
  (if reqTools req then executeToolCalls (genToolCalls r) else mret tt);;
  mret r.

(** [PlanningEngine.executePlanningPhase]: returns the call's usage. *)
Definition executePlanningPhase (observation : BrowserState) (stepNumber : Z) (task : string) : M Usage :=
  st ← getSt;
  let recent := Memory.getRecentActions (memory st) 5 in
  r ← generateCall (mkRequest LogicClient planningSystem
         [mkMsg "user" (CParts [TextPart (planningPrompt observation stepNumber task recent);
                                ImagePart (screenshot observation) "image/png"])] false);
  let facts := Planning.extractSection (genText r) "FACTS" in
  let nextSteps := Planning.extractSection (genText r) "NEXT STEPS" in
  modifySt (fun st => setMemory st (Memory.addPlanningStep (memory st) stepNumber facts nextSteps));;
  mret (usage r).

(** THINK: the decision engine of each variant, with its token accounting. *)
Definition decide (cfg : AgentConfig) (observation : BrowserState) (task : string)
    (stateChanged : bool) : M GenerateResult :=
  match variant cfg with
  | SinglePhase =>
      st ← getSt;
      let activeClient := if hasVisionClient cfg then VisionClient else LogicClient in
      let req := mkRequest activeClient (Memory.systemPrompt (memory st))
                   (buildMessages SinglePhase st observation "" task stateChanged) true in
      r ← generateCall req;
      modifySt (fun st => addTrace st (mkStepTrace (stepCount st) observation req r));;
      modifySt (fun st => match activeClient with
                          | VisionClient => addVisionTokens st (usage r)
                          | LogicClient => addLogicTokens st (usage r)
                          end);;
      mret r
  | TwoPhase =>
      st ← getSt;
      let recent := Memory.getRecentActions (memory st) 3 in
      vr ← generateCall (mkRequest VisionClient visionSystem
             [mkMsg "user" (CParts [TextPart (visionPrompt observation task recent);
                                    ImagePart (screenshot observation) "image/png"])] false);
      let visionAnalysis := genText vr in
      modifySt (fun st => addVisionTokens st (usage vr));;
      modifySt (fun st => setMemory st (Memory.addVisionAnalysisStep (memory st) (stepCount st)
                                          visionAnalysis observation));;
      st ← getSt;
      let req := mkRequest LogicClient (Memory.systemPrompt (memory st))
                   (buildMessages TwoPhase st observation visionAnalysis task stateChanged) true in
      r ← generateCall req;
      modifySt (fun st => addTrace st (mkStepTrace (stepCount st) observation req r));;
      modifySt (fun st => addLogicTokens st (usage r));;
      mret r
  end.

(** Tool-call handling: stop at [done], otherwise record an Action. *)
Fixpoint handleToolCalls (observation : BrowserState) (r : GenerateResult)
    (tcs : list ToolCall) : M (option string) :=
  match tcs with
  | [] => mret None
  | toolCall :: rest =>
      if String.eqb (tcName toolCall) "done" then mret (Some (doneAnswer (tcArgs toolCall)))
      else
        st ← getSt;
        let toolResult := readCaptured st (tcName toolCall) in
        modifySt (fun st => setMemory st (Memory.addActionStep (memory st)
                 (mkAction (stepCount st) (tcName toolCall) (tcArgs toolCall) (genText r)
                           (Some observation)
                           (Some (ToolResult.mk true None None (Some toolResult))))));;
        modifySt (fun st => setLastToolResults st (delete (tcName toolCall) (lastToolResults st)));;
        liftW (waitForTimeout 1500);;
        handleToolCalls observation r rest
  end.

(** One iteration of the ReAct loop; returns the final answer it set. *)
Definition stepBody (cfg : AgentConfig) (task : string) : M (option string) :=
  modifySt (fun st => setStepCount st (stepCount st + 1));;
  liftW waitForLoadState;;
  liftW (waitForTimeout 500);;
  observation ← liftW captureState;
  stateChanged ← hasStateChanged observation;
  st ← getSt;
  (if planningDue cfg (stepCount st) then
     planningUsage ← executePlanningPhase observation (stepCount st) task;
     modifySt (fun st => addPlanningUsage cfg st planningUsage)
   else mret tt);;
  (* LOOP DETECTION: advisory, the result is only printed *)
  st ← getSt;
  let _ := LoopDetector.detectLoop (Memory.getRecentActions (memory st) 5) in
  r ← decide cfg observation task stateChanged;
  if String.eqb (finishReason r) "stop" && negb (String.eqb (genText r) "") then
    mret (Some (genText r))
  else handleToolCalls observation r (genToolCalls r).

(** [!finalAnswer] *)
Definition noAnswer (fa : option string) : bool :=
  match fa with
  | None => true
  | Some s => String.eqb s ""
  end.

(** [while (!finalAnswer && this.stepCount < this.config.maxSteps!)].  The
    fuel only makes the recursion structural; [run] passes [maxSteps],
    which the guard never outlasts (lemma [loop_fuel_enough]).  The [break]
    after a "stop" answer leaves the loop as the guard would. *)
Fixpoint loop (cfg : AgentConfig) (task : string) (fuel : nat) (finalAnswer : option string)
    : M (option string) :=
  match fuel with
  | O => mret finalAnswer
  | S fuel' =>
      st ← getSt;
      if noAnswer finalAnswer && Z.ltb (stepCount st) (maxSteps cfg) then
        fa ← stepBody cfg task;
        loop cfg task fuel' fa
      else mret finalAnswer
  end.

Definition run (cfg : AgentConfig) (task : string) (startUrl : option string) : M string :=
  (match startUrl with
   | Some u =>
       if String.eqb u "" then mret tt
       else liftW (goto u);;
            match variant cfg with
            | SinglePhase => mret tt
            | TwoPhase => liftW (waitForTimeout (networkWait cfg))
            end
   | None => mret tt
   end);;
  modifySt (fun st => setMemory st (Memory.addTaskStep (memory st) task));;
  modifySt (fun st => setStepCount st 0);;
  fa ← loop cfg task (Z.to_nat (maxSteps cfg)) None;
  match fa with
  | Some s => if String.eqb s "" then mret ("Task incomplete after " +:+ showZ (maxSteps cfg) +:+ " steps")
              else mret s
  | None => mret ("Task incomplete after " +:+ showZ (maxSteps cfg) +:+ " steps")
  end.

End Run.

End Agent.

(* ------------------------------------------------------------------ *)
(** ** The data a fingerprint depends on *)

Module FingerprintData.
Import Fingerprint.

(** Per element: tag, text cut to 50 characters (absent stays absent), x, y. *)
Definition fpElem (e : InteractiveElement) : string * option string * Z * Z :=
  (tag e, option_map (substring 0 50) (text e), x e, y e).

(** url, title, element count and the first 20 elements' data. *)
Definition fpData (o : BrowserState) :=
  (url o, title o, length (elements o), map fpElem (take 20 (elements o))).

(** [elementJson] and [computeStateHash] as functions of that data. *)
Definition elemJsonOf (d : string * option string * Z * Z) : chars :=
  let '(t, ot, x, y) := d in
  obj ([entry "tag" (quote t)] ++
       match ot with Some s => [entry "text" (quote s)] | None => [] end ++
       [entry "x" (number x); entry "y" (number y)]).

Definition hashOf (d : string * string * nat * list (string * option string * Z * Z)) : chars :=
  let '(u, ti, n, es) := d in
  obj [entry "url" (quote u); entry "title" (quote ti);
       entry "elementCount" (number (Z.of_nat n));
       entry "elements" (arr (map elemJsonOf es))].

End FingerprintData.

(* ------------------------------------------------------------------ *)
(** ** Vocabulary of the run-level properties *)

Module RunSpec.
Import Agent.

(** A computation that, from any state, ends (normally or not) in a state
    related to the one it started from. *)
Definition Stable {World} (R : AgentState -> AgentState -> Prop) {A} (m : M World A) : Prop :=
  forall s, R s.2 (m s).1.2.

(** Token accounting: the counters grow by a logic amount [dl] and a vision
    amount [dv], the total by both. *)
Definition usageStep (st st' : AgentState) : Prop :=
  exists dl dv,
    logicUsage st' = addUsage (logicUsage st) dl /\
    visionUsage st' = addUsage (visionUsage st) dv /\
    totalUsage st' = addUsage (addUsage (totalUsage st) dl) dv.

Definition usageSplit (st : AgentState) : Prop :=
  totalUsage st = addUsage (logicUsage st) (visionUsage st).

Definition usageLe (u v : Usage) : Prop :=
  (inputTokens u <= inputTokens v)%N /\ (outputTokens u <= outputTokens v)%N /\
  (totalTokens u <= totalTokens v)%N.

(** An Action entry whose result has [success] true. *)
Definition actionOk (s : MemoryStep) : Prop :=
  match s with
  | ActionS a => exists r, result a = Some r /\ ToolResult.success r = true
  | _ => True
  end.

(** The history only grows, by entries whose Actions all succeeded. *)
Definition memoryGrowsOk (st st' : AgentState) : Prop :=
  exists new, Memory.steps (memory st') = Memory.steps (memory st) ++ new /\
              Forall actionOk new /\
              Memory.systemPrompt (memory st') = Memory.systemPrompt (memory st).

(** The fields a step's bookkeeping owns. *)
Definition frame (st st' : AgentState) : Prop :=
  stepCount st' = stepCount st /\ trace st' = trace st /\ lastStateHash st' = lastStateHash st.

Fixpoint firstDone (tcs : list ToolCall) : option Params :=
  match tcs with
  | [] => None
  | tc :: rest => if String.eqb (tcName tc) "done" then Some (tcArgs tc) else firstDone rest
  end.

(** The answer a decision sets: its text on "stop" with text, otherwise the
    answer of its first done call, if any. *)
Definition stopAnswer (r : GenerateResult) : option string :=
  if String.eqb (finishReason r) "stop" && negb (String.eqb (genText r) "")
  then Some (genText r) else None.

Definition stepOutcome (r : GenerateResult) : option string :=
  match stopAnswer r with
  | Some t => Some t
  | None => option_map doneAnswer (firstDone (genToolCalls r))
  end.

Definition nonterminal (r : GenerateResult) : Prop := stepOutcome r = None.

(** The three exits of a run, over its list of decisions. *)
Definition exitStop (ds : list GenerateResult) (ans : string) : Prop :=
  exists pre r, ds = pre ++ [r] /\ Forall nonterminal pre /\ stopAnswer r = Some ans.

Definition exitDone (ds : list GenerateResult) (ans : string) : Prop :=
  exists pre r args, ds = pre ++ [r] /\ Forall nonterminal pre /\ stopAnswer r = None /\
    firstDone (genToolCalls r) = Some args /\ ans = doneAnswer args.

Definition exitBudget (cfg : AgentConfig) (ds : list GenerateResult) (ans : string) : Prop :=
  Forall nonterminal ds /\ length ds = Z.to_nat (maxSteps cfg) /\
  ans = "Task incomplete after " +:+ showZ (maxSteps cfg) +:+ " steps".

(** The exits as the specification words them. *)
Definition claimedExit (cfg : AgentConfig) (ds : list GenerateResult) (ans : string) : Prop :=
  (exists pre r, ds = pre ++ [r] /\ finishReason r = "stop" /\ genText r <> "" /\
     genToolCalls r = [] /\ ans = genText r) \/
  (exists pre r args, ds = pre ++ [r] /\ In (mkToolCall "done" args) (genToolCalls r) /\
     lookupKey "result" args = Some (PStr ans)) \/
  (length ds = Z.to_nat (maxSteps cfg) /\
     exists p q, ans = p +:+ "incomplete after " +:+ showZ (maxSteps cfg) +:+ " steps" +:+ q).

(** The unchanged-page warning of entry [i] of a run's decisions: entry [i]
    is step [i+1]; it warns when its snapshot's fingerprint equals the one
    of the step before. *)
Definition warnCond (es : list StepTrace) (i : nat) (e : StepTrace) : bool :=
  match i with
  | O => false
  | S j =>
      match es !! j with
      | Some e' => String.eqb (Fingerprint.computeStateHash (trObs e))
                              (Fingerprint.computeStateHash (trObs e'))
      | None => false
      end
  end.

(** Decision prompts along a run: step numbers from [n+1], the warning
    decided by the previous fingerprint [prev] and the step number. *)
Definition prompted (v : Variant) (task : string) (prev : option string) (e : StepTrace) : Prop :=
  let changed := match prev with
                 | Some h => negb (String.eqb (Fingerprint.computeStateHash (trObs e)) h)
                 | None => true
                 end in
  exists analysis, promptText (trRequest e) =
    Some (taskReminder task +:+
          (if negb changed && Z.ltb 1 (trStep e) then stateWarningText v else "") +:+
          observationBody v (trObs e) analysis).

Fixpoint chain (v : Variant) (task : string) (n : Z) (prev : option string)
    (es : list StepTrace) : Prop :=
  match es with
  | [] => True
  | e :: t => trStep e = (n + 1)%Z /\ prompted v task prev e /\
              chain v task (n + 1) (Some (Fingerprint.computeStateHash (trObs e))) t
  end.

(** The tool calls of a batch that come before its first "done" call. *)
Fixpoint beforeDone (tcs : list ToolCall) : list ToolCall :=
  match tcs with
  | [] => []
  | tc :: rest => if String.eqb (tcName tc) "done" then [] else tc :: beforeDone rest
  end.

End RunSpec.

(* ------------------------------------------------------------------ *)
(** ** Concrete inputs used by the properties *)

Module Scenarios.

Definition sectionHeader (section : string) : chars := lit section ++ [":"%char].

(** "FACTS:\n- a\n- b\nNEXT STEPS:\n- c\nCONTINUE: yes" *)
Definition planningExample : string :=
  "FACTS:" +:+ Agent.nl +:+ "- a" +:+ Agent.nl +:+ "- b" +:+ Agent.nl +:+
  "NEXT STEPS:" +:+ Agent.nl +:+ "- c" +:+ Agent.nl +:+ "CONTINUE: yes".

(** Click parameters [{x, y}] *)
Definition clickAt (x y : Z) : Params := [("x", PNum x); ("y", PNum y)].

(** The click actions of the loop-detection scenario, and a scroll. *)
Definition loopAction (n : Z) (x y : Z) : ActionStep :=
  mkAction n "click" (clickAt x y) "" None None.
Definition scrollAction : ActionStep :=
  mkAction 4 "scroll" [("direction", PStr "down")] "" None None.

(** A failed click, as the Action log would hold one. *)
Definition failedClick : ActionStep :=
  mkAction 3 "click" (clickAt 5 5) "" None (Some (ToolResult.mk false None (Some "boom") None)).

(** A scripted environment: the world is the queue of model responses
    still to be returned; the page never changes and every tool and wait
    succeeds. *)
Import Agent.

Definition sampleObs : BrowserState :=
  mkBrowserState "https://example.com" "Example" "" [] (1280, 720)%Z.

Definition World : Type := list GenerateResult.

Definition scCapture (w : World) : World * Exc BrowserState := (w, Ok sampleObs).
Definition scGenerate (req : Request) (w : World) : World * Exc GenerateResult :=
  match w with
  | [] => (w, Throw "no response")
  | r :: rest => (rest, Ok r)
  end.
Definition scTool (name : string) (args : Params) (w : World) : World * Exc string :=
  (w, Ok (name +:+ " done")).
Definition scWaitLoad (w : World) : World * Exc unit := (w, Ok tt).
Definition scWaitTimeout (ms : Z) (w : World) : World * Exc unit := (w, Ok tt).
Definition scGoto (u : string) (w : World) : World * Exc unit := (w, Ok tt).

Definition scRun (cfg : AgentConfig) (task : string) (startUrl : option string) :=
  run World scCapture scGenerate scTool scWaitLoad scWaitTimeout scGoto cfg task startUrl.

(** maxSteps 3, planning every 5 steps, the single-phase agent. *)
Definition scConfig : AgentConfig := mkConfig 3 5 2000 SinglePhase false.

Definition someUsage : Usage := mkUsage 10 5 15.

(** "stop" with text and a click call; "done" with an empty result; a click. *)
Definition stopWithClick : GenerateResult :=
  mkGenerateResult "hello" [mkToolCall "click" (clickAt 1 2)] "stop" someUsage.
Definition doneEmpty : GenerateResult :=
  mkGenerateResult "" [mkToolCall "done" [("result", PStr "")]] "tool-calls" someUsage.
Definition clickOnly : GenerateResult :=
  mkGenerateResult "" [mkToolCall "click" (clickAt 1 2)] "tool-calls" someUsage.

Definition stopRun := scRun scConfig "T" None ([stopWithClick], newAgentState).
Definition doneRun := scRun scConfig "T" None ([doneEmpty], newAgentState).
Definition budgetRun := scRun scConfig "T" None ([clickOnly; clickOnly; clickOnly], newAgentState).

End Scenarios.

(* ------------------------------------------------------------------ *)
(** ** Character classes used by the JSON injectivity proofs *)

Module JsonClasses.

Definition allAscii : list ascii := map ascii_of_nat (seq 0 256).

Fixpoint isPrefix (p s : chars) : bool :=
  match p, s with
  | [], _ => true
  | c :: p', d :: s' => Ascii.eqb c d && isPrefix p' s'
  | _ :: _, [] => false
  end.

Definition escapeDistinct (c1 c2 : ascii) : bool :=
  Ascii.eqb c1 c2 || (negb (isPrefix (escapeChar c1) (escapeChar c2)) &&
                      negb (isPrefix (escapeChar c2) (escapeChar c1))).

Definition escapeHead (c : ascii) : bool :=
  match escapeChar c with
  | d :: _ => negb (Ascii.eqb d dq)
  | [] => false
  end.

Definition numChar (c : ascii) : bool := existsb (Ascii.eqb c) (lit "-0123456789").

(** The characters that may follow a value: ',' '}' ']' *)
Definition delim (c : ascii) : bool :=
  Ascii.eqb c ","%char || Ascii.eqb c "}"%char || Ascii.eqb c "]"%char.

Definition primClass (p : Prim) : nat :=
  match p with
  | PStr _ => 0 | PNum _ => 1 | PBool true => 2 | PBool false => 3 | PNull => 4
  end.

Definition charClass (c : ascii) : nat :=
  if Ascii.eqb c dq then 0 else if numChar c then 1
  else if Ascii.eqb c "t"%char then 2 else if Ascii.eqb c "f"%char then 3 else 4.

Definition paramEntry (kv : string * Prim) : chars := entry kv.1 (stringifyPrim kv.2).

End JsonClasses.

(* ------------------------------------------------------------------ *)
(** ** Logger.wrapText (src/src/core/logger.ts) *)

Module Logger.
Import Planning.

Definition MAX_WIDTH : nat := 80.

Definition space : ascii := " "%char.

(** [String.prototype.split(' ')] *)
Fixpoint splitSp (s : chars) : list chars :=
  match s with
  | [] => [[]]
  | c :: t =>
      if Ascii.eqb c space then [] :: splitSp t
      else match splitSp t with
           | [] => [[c]]
           | h :: r => (c :: h) :: r
           end
  end.

(** [Array.prototype.join('\n')] *)
Fixpoint joinNl (l : list chars) : chars :=
  match l with
  | [] => []
  | [a] => a
  | a :: r => a ++ newline :: joinNl r
  end.

(** One iteration of the [for (const word of words)] loop, on
    [(lines, currentLine)]. *)
Definition wrapStep (acc : list chars * chars) (word : chars) : list chars * chars :=
  let '(lines, currentLine) := acc in
  if Nat.leb (length (trim (currentLine ++ space :: word))) MAX_WIDTH then
    (lines, match currentLine with [] => word | _ => currentLine ++ space :: word end)
  else
    let lines := match currentLine with [] => lines | _ => lines ++ [currentLine] end in
    if Nat.ltb MAX_WIDTH (length word)
    then (lines ++ [take (MAX_WIDTH - 3) word ++ lit "..."], currentLine)
    else (lines, word).

Definition wrapText (text : string) : string :=
  if Nat.leb (length (lit text)) MAX_WIDTH then text
  else
    let '(lines, currentLine) := fold_left wrapStep (splitSp (lit text)) ([], []) in
    let lines := match currentLine with [] => lines | _ => lines ++ [currentLine] end in
    string_of_list_ascii (joinNl lines).

End Logger.

(* ------------------------------------------------------------------ *)
(** ** ToolRegistry (src/src/core/tool-registry.ts) *)

(** The [Map] is an association list in insertion order; [Map.prototype.set]
    overwrites an existing key in place and appends a new one. *)
Module ToolRegistry.
Section Registry.
Context {Tool : Type}.

Definition t : Type := list (string * Tool).

Definition create : t := [].

Fixpoint mapSet (k : string) (v : Tool) (m : t) : t :=
  match m with
  | [] => [(k, v)]
  | (k', v') :: r => if String.eqb k k' then (k, v) :: r else (k', v') :: mapSet k v r
  end.

Fixpoint mapDelete (k : string) (m : t) : bool * t :=
  match m with
  | [] => (false, [])
  | (k', v') :: r =>
      if String.eqb k k' then (true, r)
      else let '(b, r') := mapDelete k r in (b, (k', v') :: r')
  end.

Definition register (name : string) (tool : Tool) (m : t) : t := mapSet name tool m.

Fixpoint get (name : string) (m : t) : option Tool :=
  match m with
  | [] => None
  | (k, v) :: r => if String.eqb name k then Some v else get name r
  end.

(** [tools[name] = tool] on a plain object, as its own properties: an
    assignment to ["__proto__"] sets the object's prototype and creates no
    own property. *)
Definition setProperty (tools : gmap string Tool) (kv : string * Tool) : gmap string Tool :=
  if String.eqb kv.1 "__proto__" then tools else <[kv.1 := kv.2]> tools.

(** The own properties of the returned record. *)
Definition getAISDKTools (m : t) : gmap string Tool :=
  fold_left setProperty m ∅.

Definition list (m : t) : list string := map fst m.

Definition has (name : string) (m : t) : bool := existsb (fun kv => String.eqb name kv.1) m.

(** Returns [Map.prototype.delete]'s result and the new map. *)
Definition unregister (name : string) (m : t) : bool * t := mapDelete name m.

Definition clear (m : t) : t := [].

(** The registries a program can build with the class's methods. *)
Inductive reachable : t -> Prop :=
| reach_create : reachable create
| reach_register name tool m : reachable m -> reachable (register name tool m)
| reach_unregister name m : reachable m -> reachable (unregister name m).2
| reach_clear m : reachable m -> reachable (clear m).

End Registry.
End ToolRegistry.

(* ------------------------------------------------------------------ *)
(** ** The type tool (src/src/tools/browser/type.tool.ts)

    The [execute] function of [createTypeTool], over the Playwright page as
    an abstract world; coordinates are integers. *)

Module BrowserTools.
Import Agent.

Section Page.
Variable World : Type.
(** [addVisualMarker(page, x, y, color, duration)] (a [page.evaluate]). *)
Variable addVisualMarker : Z -> Z -> string -> Z -> World -> World * Exc unit.
Variable mouseMove : Z -> Z -> World -> World * Exc unit.
Variable mouseClick : Z -> Z -> World -> World * Exc unit.
Variable waitForTimeout : Z -> World -> World * Exc unit.
Variable keyboardType : string -> World -> World * Exc unit.
Variable keyboardPress : string -> World -> World * Exc unit.

Definition PM (A : Type) : Type := World -> World * Exc A.

#[local] Instance PM_ret : MRet PM := fun A a w => (w, Ok a).
#[local] Instance PM_bind : MBind PM := fun A B k m w =>
  match m w with
  | (w', Ok a) => k a w'
  | (w', Throw e) => (w', Throw e)
  end.

(** [catch (error) { throw new Error(prefix + error.message) }] *)
Definition rethrow {A} (prefix : string) (m : PM A) : PM A := fun w =>
  match m w with
  | (w', Throw e) => (w', Throw (prefix +:+ e))
  | r => r
  end.

(** [for (const char of textToType)]: type, then wait [typingDelay]. *)
Fixpoint typeChars (typingDelay : Z) (cs : chars) : PM unit :=
  match cs with
  | [] => mret tt
  | c :: r =>
      keyboardType (String c EmptyString);;
      waitForTimeout typingDelay;;
      typeChars typingDelay r
  end.

Definition endsWithNewline (text : string) : bool :=
  match last (lit text) with
  | Some c => Ascii.eqb c Planning.newline
  | None => false
  end.

(** [text.replace(/\n/g, '\\n')] *)
Definition displayText (text : string) : string :=
  string_of_list_ascii
    (flat_map (fun c => if Ascii.eqb c Planning.newline then [bs; "n"%char] else [c]) (lit text)).

Definition createTypeTool (typingDelay : Z) (x y : Z) (text : string) : PM string :=
  rethrow "Type failed: " (
    addVisualMarker x y "blue" 2000;;
    mouseMove x y;;
    waitForTimeout 2000;;
    mouseClick x y;;
    waitForTimeout 1000;;
    let pressEnter := endsWithNewline text in
    let textToType := if pressEnter then removelast (lit text) else lit text in
    typeChars typingDelay textToType;;
    (if pressEnter then keyboardPress "Enter" else mret tt);;
    mret ("Typed " +:+ dqs +:+ displayText text +:+ dqs +:+ " at (" +:+ showZ x +:+ ", " +:+
          showZ y +:+ ")" +:+ (if pressEnter then " and pressed Enter" else ""))).

End Page.

(** A page that records every call and never fails. *)
Inductive PageEvent :=
| EMarker (x y : Z) (color : string) (duration : Z)
| EMove (x y : Z)
| EClick (x y : Z)
| EWait (ms : Z)
| EType (s : string)
| EPress (key : string).

Definition RecPage : Type := list PageEvent.

Definition recTypeTool (typingDelay x y : Z) (text : string) : PM RecPage string :=
  createTypeTool RecPage
    (fun x y c d w => (w ++ [EMarker x y c d], Ok tt))
    (fun x y w => (w ++ [EMove x y], Ok tt))
    (fun x y w => (w ++ [EClick x y], Ok tt))
    (fun ms w => (w ++ [EWait ms], Ok tt))
    (fun s w => (w ++ [EType s], Ok tt))
    (fun k w => (w ++ [EPress k], Ok tt))
    typingDelay x y text.

End BrowserTools.

(* ================================================================== *)
(** * Properties *)

(* ------------------------------------------------------------------ *)
(** ** Memory *)

Module MemoryFacts.
Import Memory.

Lemma toMessages_app (l1 l2 : list MemoryStep) (sp : string) :
  toMessages (mk (l1 ++ l2) sp) = toMessages (mk l1 sp) ++ toMessages (mk l2 sp).
Proof. unfold toMessages; simpl. apply flat_map_app. Qed.

Lemma toMessages_cons (s : MemoryStep) (l : list MemoryStep) (sp : string) :
  toMessages (mk (s :: l) sp) = stepMessages s ++ toMessages (mk l sp).
Proof. reflexivity. Qed.

(** C2: for a fresh Memory, Task "T", a successful click {x:1,y:2} observed as
    "Clicked" and a failed action give exactly the user, assistant tool-call
    and tool-result messages; the tool result falls back to truthy
    structured data and then to "Success"; and in any log an Action step is
    replayed (as its two messages) exactly when its result has success
    true, otherwise it contributes nothing. *)
Theorem toMessages_replays_successful_actions
    (sp : option string) (n1 : Z) (why : string) (o1 : option BrowserState)
    (d : option JVal) (err : option string) (failed : ActionStep)
    (Hfailed : match result failed with
               | Some r => ToolResult.success r = false
               | None => True
               end) :
  toMessages (addActionStep (addActionStep (addTaskStep (create sp) "T")
      (mkAction n1 "click" [("x", PNum 1); ("y", PNum 2)] why o1
                (Some (ToolResult.mk true d err (Some "Clicked"))))) failed) =
    [mkMsg "user" (CText "T");
     mkMsg "assistant" (CParts [ToolCallPart ("click-" +:+ showZ n1) "click"
                                  [("x", PNum 1); ("y", PNum 2)]]);
     mkMsg "tool" (CParts [ToolResultPart ("click-" +:+ showZ n1) "click" (RText "Clicked")])]
  /\ (forall r, ToolResult.observation r = None ->
        resultValue r = match ToolResult.data r with
                        | Some dv => if truthy dv then RData dv else RText "Success"
                        | None => RText "Success"
                        end)
  /\ (forall r s, ToolResult.observation r = Some s -> s <> "" -> resultValue r = RText s)
  /\ (forall (pre post : list MemoryStep) (sp' : string) (a : ActionStep),
        toMessages (mk (pre ++ ActionS a :: post) sp') =
        toMessages (mk pre sp') ++
        match result a with
        | Some r =>
            if ToolResult.success r then
              [mkMsg "assistant" (CParts [ToolCallPart (toolCallId a) (toolName a) (parameters a)]);
               mkMsg "tool" (CParts [ToolResultPart (toolCallId a) (toolName a) (resultValue r)])]
            else []
        | None => []
        end ++ toMessages (mk post sp')).
Proof.
  split; [|split; [|split]].
  - unfold toMessages, addActionStep, addTaskStep, push, create; simpl.
    destruct (result failed) as [r|]; [rewrite Hfailed|]; reflexivity.
  - intros r Hr. unfold resultValue. rewrite Hr. reflexivity.
  - intros r s Hr Hs. unfold resultValue. rewrite Hr.
    destruct (String.eqb_spec s ""); [contradiction|reflexivity].
  - intros pre post sp' a.
    rewrite toMessages_app, toMessages_cons. reflexivity.
Qed.

(** C9: [clear] empties the step log, so [toMessages] and every
    [getRecentActions n] are empty, and keeps the system prompt. *)
Theorem clear_empties_log (m : t) :
  steps (clear m) = [] /\ toMessages (clear m) = [] /\
  (forall n : Z, getRecentActions (clear m) n = []) /\
  systemPrompt (clear m) = systemPrompt m.
Proof.
  repeat split. intros n. unfold getRecentActions, slice. simpl.
  apply drop_nil.
Qed.

(** For a positive [count], [getRecentActions] returns the last
    [min count n] of the memory's [n] action steps, in their order. *)
Lemma getRecentActions_suffix (m : t) (count : Z) (H : (0 < count)%Z) :
  exists pre, actionsOf (steps m) = pre ++ getRecentActions m count /\
    length (getRecentActions m count) = Nat.min (Z.to_nat count) (length (actionsOf (steps m))).
Proof.
  unfold getRecentActions, slice.
  set (l := actionsOf (steps m)).
  replace (Z.ltb (- count) 0) with true by (symmetry; apply Z.ltb_lt; lia).
  exists (take (Z.to_nat (Z.max (Z.of_nat (length l) + - count) 0)) l).
  split; [symmetry; apply take_drop|].
  rewrite length_drop. lia.
Qed.

(** For [count <= 0], [slice(-count)] slices from index [-count]:
    [getRecentActions m 0] returns every action step, and a negative
    count drops the first [-count] of them. *)
Lemma getRecentActions_nonpositive (m : t) (count : Z) (H : (count <= 0)%Z) :
  getRecentActions m count = drop (Z.to_nat (- count)) (actionsOf (steps m)).
Proof.
  unfold getRecentActions, slice.
  set (l := actionsOf (steps m)).
  replace (Z.ltb (- count) 0) with false by (symmetry; apply Z.ltb_ge; lia).
  destruct (Nat.le_gt_cases (Z.to_nat (- count)) (length l)) as [Hle|Hgt].
  - f_equal. lia.
  - rewrite !drop_ge; [reflexivity|lia|lia].
Qed.

Lemma firstObservation_rev (l : list ActionStep) (o : BrowserState) :
  firstObservation (rev l) = Some o <->
  exists l1 a l2, l = l1 ++ a :: l2 /\ observation a = Some o /\
                  Forall (fun b => observation b = None) l2.
Proof.
  induction l as [|a l IH] using rev_ind.
  - simpl. split; [discriminate|]. intros (l1 & a & l2 & E & _). destruct l1; discriminate.
  - rewrite rev_unit. simpl. destruct (observation a) as [o'|] eqn:Ea.
    + split.
      * intros [= <-]. exists l, a, []. auto.
      * intros (l1 & b & l2 & E & Eb & F).
        destruct l2 as [|c l2] using rev_ind.
        -- apply app_inj_tail in E as [_ <-]. congruence.
        -- rewrite app_comm_cons, app_assoc in E. apply app_inj_tail in E as [_ <-].
           apply Forall_app in F as [_ F]. inversion F. congruence.
    + rewrite IH. split.
      * intros (l1 & b & l2 & E & Eb & F). exists l1, b, (l2 ++ [a]).
        rewrite E, <- app_assoc. split; [reflexivity|]. split; [exact Eb|].
        apply Forall_app; auto.
      * intros (l1 & b & l2 & E & Eb & F).
        destruct l2 as [|c l2] using rev_ind.
        -- apply app_inj_tail in E as [_ <-]. congruence.
        -- rewrite app_comm_cons, app_assoc in E. apply app_inj_tail in E as [E <-].
           exists l1, b, l2. apply Forall_app in F as [F _]. auto.
Qed.

Lemma firstObservation_rev_none (l : list ActionStep) :
  firstObservation (rev l) = None <-> Forall (fun b => observation b = None) l.
Proof.
  induction l as [|a l IH] using rev_ind; simpl.
  - split; auto.
  - rewrite rev_unit. simpl. rewrite Forall_app. destruct (observation a) eqn:Ea.
    + split; [discriminate|]. intros [_ F]. inversion F. congruence.
    + rewrite IH. split; [intros F; split; auto|intros [F _]; exact F].
Qed.

(** [getLastObservation] returns the observation of the latest action step
    that has one, and nothing when no action step has one. *)
Theorem getLastObservation_spec (m : t) :
  (forall o, getLastObservation m = Some o <->
     exists l1 a l2, actionsOf (steps m) = l1 ++ a :: l2 /\ observation a = Some o /\
                     Forall (fun b => observation b = None) l2) /\
  (getLastObservation m = None <-> Forall (fun b => observation b = None) (actionsOf (steps m))).
Proof.
  split; [intros o; apply firstObservation_rev|apply firstObservation_rev_none].
Qed.

Lemma actionsOf_app l1 l2 : actionsOf (l1 ++ l2) = actionsOf l1 ++ actionsOf l2.
Proof. unfold actionsOf. apply omap_app. Qed.

(** How each [add*Step] changes [toMessages]: a task step adds one user
    message, planning and vision-analysis steps add nothing, and an action
    step adds its tool call and tool result only when its result is a
    success. *)
Theorem toMessages_push (m : t) :
  (forall task, toMessages (addTaskStep m task) = toMessages m ++ [mkMsg "user" (CText task)]) /\
  (forall n f ns, toMessages (addPlanningStep m n f ns) = toMessages m) /\
  (forall n an o, toMessages (addVisionAnalysisStep m n an o) = toMessages m) /\
  (forall a, toMessages (addActionStep m a) = toMessages m ++
     match result a with
     | Some r => if ToolResult.success r then
         [mkMsg "assistant" (CParts [ToolCallPart (toolCallId a) (toolName a) (parameters a)]);
          mkMsg "tool" (CParts [ToolResultPart (toolCallId a) (toolName a) (resultValue r)])]
         else []
     | None => []
     end).
Proof.
  unfold toMessages, addTaskStep, addPlanningStep, addVisionAnalysisStep, addActionStep, push; simpl.
  repeat split; intros; rewrite flat_map_app; simpl; rewrite ?app_nil_r; reflexivity.
Qed.

End MemoryFacts.

(* ------------------------------------------------------------------ *)
(** ** Planning section extraction *)

Module PlanningFacts.
Import Planning.

Lemma prefixb_app (p t : chars) : prefixb p (p ++ t) = true.
Proof.
  induction p as [|c p IH]; simpl; [reflexivity|].
  rewrite Ascii.eqb_refl, IH. reflexivity.
Qed.

Lemma regexMatch_unfold (hdr s : chars) :
  regexMatch hdr s =
  if prefixb hdr s then Some (hdr ++ lazyBody (drop (length hdr) s))
  else match s with [] => None | _ :: s' => regexMatch hdr s' end.
Proof. destruct s; reflexivity. Qed.

Lemma lazyBody_unfold (s : chars) :
  lazyBody s = if stopAt s then [] else match s with [] => [] | c :: s' => c :: lazyBody s' end.
Proof. destruct s; reflexivity. Qed.

Lemma regexMatch_absent (hdr s : chars) :
  (forall i, prefixb hdr (drop i s) = false) -> regexMatch hdr s = None.
Proof.
  induction s as [|c s IH]; intros H; simpl.
  - specialize (H 0). simpl in H. rewrite H. reflexivity.
  - pose proof (H 0) as H0. simpl in H0. rewrite H0.
    apply IH. intros i. apply (H (S i)).
Qed.

Lemma regexMatch_first (hdr pre t : chars) :
  (forall i, i < length pre -> prefixb hdr (drop i (pre ++ t)) = false) ->
  prefixb hdr t = true ->
  regexMatch hdr (pre ++ t) = Some (hdr ++ lazyBody (drop (length hdr) t)).
Proof.
  induction pre as [|c pre IH]; intros Hpre Ht; simpl.
  - rewrite regexMatch_unfold, Ht. reflexivity.
  - pose proof (Hpre 0 ltac:(simpl; lia)) as H0. simpl in H0. rewrite H0.
    apply IH; [|exact Ht]. intros i Hi. apply (Hpre (S i)). simpl. lia.
Qed.

Lemma lazyBody_stop (body rest : chars) :
  stopAt rest = true ->
  (forall j, j < length body -> stopAt (drop j (body ++ rest)) = false) ->
  lazyBody (body ++ rest) = body.
Proof.
  induction body as [|c body IH]; intros Hr Hb; simpl.
  - rewrite lazyBody_unfold, Hr. reflexivity.
  - pose proof (Hb 0 ltac:(simpl; lia)) as H0. simpl in H0. rewrite H0.
    f_equal. apply IH; [exact Hr|]. intros j Hj. apply (Hb (S j)). simpl. lia.
Qed.

Lemma splitNl_nonempty (s : chars) : splitNl s <> [].
Proof.
  induction s as [|c s IH]; simpl; [discriminate|].
  destruct (Ascii.eqb c newline); [discriminate|].
  destruct (splitNl s); [contradiction|discriminate].
Qed.

(** A newline-free prefix glues onto the first line. *)
Lemma splitNl_app_nonl (h s : chars) :
  Forall (fun c => Ascii.eqb c newline = false) h ->
  exists l0 ls, splitNl s = l0 :: ls /\ splitNl (h ++ s) = (h ++ l0) :: ls.
Proof.
  intros Hh. induction Hh as [|c h Hc Hh IH].
  - simpl. destruct (splitNl s) as [|l0 ls] eqn:E;
      [exfalso; exact (splitNl_nonempty s E)|]. exists l0, ls. auto.
  - destruct IH as (l0 & ls & E1 & E2). exists l0, ls. split; [exact E1|].
    simpl. rewrite Hc, E2. reflexivity.
Qed.

Lemma trim_head (c : ascii) (s : chars) :
  isWs c = false -> exists r, trim (c :: s) = c :: r.
Proof.
  intros Hc. unfold trim. simpl. rewrite Hc. simpl.
  destruct (trimEnd s) as [|d r]; [rewrite Hc; exists []|exists (d :: r)]; reflexivity.
Qed.

(** A header line (first character not blank and not a dash, no newline)
    followed by a body whose later lines are no bullets gives no items. *)
Lemma extract_no_bullets (hdr body : chars) (c : ascii) (hdr' : chars) :
  hdr = c :: hdr' -> isWs c = false -> Ascii.eqb c "-"%char = false ->
  Forall (fun c => Ascii.eqb c newline = false) hdr ->
  Forall (fun l => startsWithDash (trim l) = false) (tail (splitNl body)) ->
  List.filter (fun line => startsWithDash (trim line)) (splitNl (hdr ++ body)) = [].
Proof.
  intros -> Hws Hdash Hnl Hlines.
  destruct (splitNl_app_nonl _ body Hnl) as (l0 & ls & E1 & E2).
  rewrite E2, E1 in *. simpl in Hlines. simpl.
  destruct (trim_head c (hdr' ++ l0) Hws) as [r Hr]. rewrite Hr. simpl. rewrite Hdash.
  clear E1 E2. induction Hlines as [|l ls Hl _ IH]; simpl; [reflexivity|]. rewrite Hl. exact IH.
Qed.

Lemma sectionHeader_shape (section : string) :
  In section ["FACTS"; "NEXT STEPS"] ->
  exists c hdr', Scenarios.sectionHeader section = c :: hdr' /\ isWs c = false /\
    Ascii.eqb c "-"%char = false /\
    Forall (fun c => Ascii.eqb c newline = false) (Scenarios.sectionHeader section).
Proof.
  intros [<-|[<-|[]]]; eexists _, _; split; [reflexivity| |reflexivity|];
    vm_compute; repeat constructor.
Qed.

(** C5: the example gives facts ["a"; "b"] and next steps ["c"]; for FACTS
    and NEXT STEPS, a text without the header gives []; and a text whose
    first header occurrence is followed by a body, up to the next
    NEXT STEPS: or CONTINUE: or the end, none of whose lines after the
    header line is a bullet (starts with "-" once trimmed) gives [].
    [extractSection] is a total function: it never fails. *)
Theorem extractSection_spec :
  extractSection Scenarios.planningExample "FACTS" = ["a"; "b"] /\
  extractSection Scenarios.planningExample "NEXT STEPS" = ["c"] /\
  (forall text section, In section ["FACTS"; "NEXT STEPS"] ->
     (forall i, prefixb (Scenarios.sectionHeader section) (drop i (lit text)) = false) ->
     extractSection text section = []) /\
  (forall text section pre body rest, In section ["FACTS"; "NEXT STEPS"] ->
     lit text = pre ++ Scenarios.sectionHeader section ++ body ++ rest ->
     (forall i, i < length pre ->
        prefixb (Scenarios.sectionHeader section) (drop i (lit text)) = false) ->
     stopAt rest = true ->
     (forall j, j < length body -> stopAt (drop j (body ++ rest)) = false) ->
     Forall (fun l => startsWithDash (trim l) = false) (tail (splitNl body)) ->
     extractSection text section = []).
Proof.
  split; [vm_compute; reflexivity|]. split; [vm_compute; reflexivity|]. split.
  - intros text section _ Habs. unfold extractSection.
    fold (Scenarios.sectionHeader section).
    rewrite (regexMatch_absent _ _ Habs). reflexivity.
  - intros text section pre body rest Hsec Htext Hpre Hrest Hbody Hlines.
    destruct (sectionHeader_shape section Hsec) as (c & hdr' & Eh & Hws & Hd & Hnl).
    unfold extractSection. fold (Scenarios.sectionHeader section). rewrite Htext.
    rewrite Htext in Hpre.
    rewrite (regexMatch_first _ _ _ Hpre (prefixb_app _ _)).
    rewrite drop_app_length, (lazyBody_stop _ _ Hrest Hbody).
    rewrite (extract_no_bullets _ _ c hdr' Eh Hws Hd Hnl Hlines). reflexivity.
Qed.

End PlanningFacts.

(* ------------------------------------------------------------------ *)
(** ** JSON.stringify is self-delimiting *)

Module JsonFacts.
Import JsonClasses.

Lemma in_allAscii (c : ascii) : In c allAscii.
Proof.
  unfold allAscii. rewrite <- (ascii_nat_embedding c). apply in_map.
  apply in_seq. pose proof (nat_ascii_bounded c). lia.
Qed.

Lemma forall_ascii (P : ascii -> bool) : forallb P allAscii = true -> forall c, P c = true.
Proof.
  intros H c. rewrite forallb_forall in H. apply H, in_allAscii.
Qed.

Lemma escapeDistinct_all (c1 c2 : ascii) : escapeDistinct c1 c2 = true.
Proof.
  revert c1. apply forall_ascii. revert c2. apply forall_ascii.
  vm_compute. reflexivity.
Qed.

Lemma escapeHead_all (c : ascii) : escapeHead c = true.
Proof. revert c. apply forall_ascii. vm_compute. reflexivity. Qed.

Lemma isPrefix_app (p t : chars) : isPrefix p (p ++ t) = true.
Proof.
  induction p as [|c p IH]; simpl; [reflexivity|]. rewrite Ascii.eqb_refl. exact IH.
Qed.

(** Of two decompositions of one list, one head is a prefix of the other. *)
Lemma app_eq_prefix (l1 l2 r1 r2 : chars) :
  l1 ++ r1 = l2 ++ r2 -> isPrefix l1 l2 = true \/ isPrefix l2 l1 = true.
Proof.
  intros H. apply app_eq_app in H as [k [[-> _]|[-> _]]].
  - right. apply isPrefix_app.
  - left. apply isPrefix_app.
Qed.

Lemma escapeChar_cancel (c1 c2 : ascii) (r1 r2 : chars) :
  escapeChar c1 ++ r1 = escapeChar c2 ++ r2 -> c1 = c2 /\ r1 = r2.
Proof.
  intros H. pose proof (escapeDistinct_all c1 c2) as D. unfold escapeDistinct in D.
  destruct (Ascii.eqb_spec c1 c2) as [<-|Hne].
  - split; [reflexivity|]. exact (app_inv_head _ _ _ H).
  - simpl in D. apply andb_prop in D as [D1 D2].
    destruct (app_eq_prefix _ _ _ _ H) as [P|P]; rewrite P in *; discriminate.
Qed.

Lemma escapes_cancel (l1 l2 r1 r2 : chars) :
  flat_map escapeChar l1 ++ dq :: r1 = flat_map escapeChar l2 ++ dq :: r2 ->
  l1 = l2 /\ r1 = r2.
Proof.
  revert l2. induction l1 as [|c1 l1 IH]; intros [|c2 l2] H; simpl in H.
  - injection H as ->. auto.
  - exfalso. pose proof (escapeHead_all c2) as Hd. unfold escapeHead in Hd.
    destruct (escapeChar c2) as [|d t]; [discriminate|].
    simpl in H. injection H as <- _. rewrite Ascii.eqb_refl in Hd. discriminate.
  - exfalso. pose proof (escapeHead_all c1) as Hd. unfold escapeHead in Hd.
    destruct (escapeChar c1) as [|d t]; [discriminate|].
    simpl in H. injection H as -> _. rewrite Ascii.eqb_refl in Hd. discriminate.
  - rewrite <- !app_assoc in H. apply escapeChar_cancel in H as [<- H].
    apply IH in H as [<- <-]. auto.
Qed.

Lemma lit_inj (s1 s2 : string) : lit s1 = lit s2 -> s1 = s2.
Proof.
  intros H. rewrite <- (string_of_list_ascii_of_string s1),
    <- (string_of_list_ascii_of_string s2). unfold lit in H. rewrite H. reflexivity.
Qed.

Lemma quote_cancel (s1 s2 : string) (r1 r2 : chars) :
  quote s1 ++ r1 = quote s2 ++ r2 -> s1 = s2 /\ r1 = r2.
Proof.
  unfold quote. simpl. intros H. injection H as H.
  rewrite <- !app_assoc in H. simpl in H.
  apply escapes_cancel in H as [H ->]. split; [apply lit_inj, H|reflexivity].
Qed.

Lemma quote_head (s : string) : exists t, quote s = dq :: t.
Proof. eexists. reflexivity. Qed.

Lemma delim_not_num (c : ascii) : delim c = true -> numChar c = false.
Proof.
  revert c. cut (forall c, implb (delim c) (negb (numChar c)) = true).
  { intros H c Hc. specialize (H c). rewrite Hc in H. destruct (numChar c); easy. }
  apply forall_ascii. vm_compute. reflexivity.
Qed.

Lemma uint_chars (d : Decimal.uint) :
  Forall (fun c => numChar c = true) (list_ascii_of_string (NilEmpty.string_of_uint d)).
Proof. induction d; simpl; repeat constructor; assumption. Qed.

Lemma number_chars (z : Z) : Forall (fun c => numChar c = true) (number z).
Proof.
  unfold number, showZ, NilZero.string_of_int, NilZero.string_of_uint.
  destruct (Z.to_int z) as [d|d]; destruct d; simpl;
    repeat constructor; apply uint_chars.
Qed.

Lemma to_uint_not_nil (p : positive) : Pos.to_uint p <> Decimal.Nil.
Proof.
  intros H. pose proof (DecimalPos.Unsigned.of_to p) as E. rewrite H in E. discriminate.
Qed.

Lemma to_int_not_nil (z : Z) : Z.to_int z <> Decimal.Pos Decimal.Nil /\ Z.to_int z <> Decimal.Neg Decimal.Nil.
Proof.
  destruct z as [|p|p]; simpl; split; try discriminate;
    intros H; injection H; apply to_uint_not_nil.
Qed.

Lemma number_inj (z1 z2 : Z) : number z1 = number z2 -> z1 = z2.
Proof.
  intros H. apply lit_inj in H. unfold showZ in H.
  destruct (to_int_not_nil z1) as [A1 B1], (to_int_not_nil z2) as [A2 B2].
  pose proof (NilZero.isi _ A1 B1) as I1. pose proof (NilZero.isi _ A2 B2) as I2.
  rewrite H, I2 in I1. injection I1 as I1.
  rewrite <- (DecimalZ.of_to z1), <- (DecimalZ.of_to z2), I1. reflexivity.
Qed.

Lemma number_nonempty (z : Z) : number z <> [].
Proof.
  intros H. unfold number in H.
  destruct (to_int_not_nil z) as [A B]. pose proof (NilZero.isi _ A B) as I.
  unfold showZ in H. destruct (NilZero.string_of_int (Z.to_int z)); [discriminate I|discriminate H].
Qed.

Lemma delim_cancel (P : ascii -> bool) (l1 l2 : chars) (c1 c2 : ascii) (r1 r2 : chars) :
  Forall (fun c => P c = true) l1 -> Forall (fun c => P c = true) l2 ->
  P c1 = false -> P c2 = false ->
  l1 ++ c1 :: r1 = l2 ++ c2 :: r2 -> l1 = l2 /\ c1 = c2 /\ r1 = r2.
Proof.
  intros H1. revert l2. induction H1 as [|a l1 Ha H1 IH]; intros l2 H2 Hc1 Hc2 H;
    destruct H2 as [|b l2 Hb H2]; simpl in H.
  - injection H as -> ->. auto.
  - injection H as <- _. congruence.
  - injection H as -> _. congruence.
  - injection H as <- H. destruct (IH l2 H2 Hc1 Hc2 H) as (-> & -> & ->). auto.
Qed.

Lemma number_cancel (z1 z2 : Z) (c1 c2 : ascii) (r1 r2 : chars) :
  numChar c1 = false -> numChar c2 = false ->
  number z1 ++ c1 :: r1 = number z2 ++ c2 :: r2 -> z1 = z2 /\ c1 = c2 /\ r1 = r2.
Proof.
  intros Hc1 Hc2 H.
  destruct (delim_cancel numChar _ _ _ _ _ _ (number_chars z1) (number_chars z2) Hc1 Hc2 H)
    as (E & -> & ->).
  apply number_inj in E. auto.
Qed.

Lemma prim_head (p : Prim) : exists c t, stringifyPrim p = c :: t /\ charClass c = primClass p.
Proof.
  destruct p as [s|z|[]|]; simpl.
  - eexists _, _. split; [reflexivity|]. reflexivity.
  - destruct (number z) as [|c t] eqn:E; [exfalso; exact (number_nonempty z E)|].
    exists c, t. split; [reflexivity|].
    pose proof (number_chars z) as F. rewrite E in F. inversion F as [|? ? Hc]; subst.
    unfold charClass. rewrite Hc.
    destruct (Ascii.eqb_spec c dq) as [->|]; [discriminate Hc|reflexivity].
  - eexists _, _. split; reflexivity.
  - eexists _, _. split; reflexivity.
  - eexists _, _. split; reflexivity.
Qed.

Lemma prim_cancel (p1 p2 : Prim) (d1 d2 : ascii) (r1 r2 : chars) :
  delim d1 = true -> delim d2 = true ->
  stringifyPrim p1 ++ d1 :: r1 = stringifyPrim p2 ++ d2 :: r2 ->
  p1 = p2 /\ d1 = d2 /\ r1 = r2.
Proof.
  intros D1 D2 H.
  assert (primClass p1 = primClass p2) as Hcl.
  { destruct (prim_head p1) as (c1 & t1 & E1 & C1), (prim_head p2) as (c2 & t2 & E2 & C2).
    rewrite E1, E2 in H. injection H as -> _. congruence. }
  destruct p1 as [s1|z1|[]|], p2 as [s2|z2|[]|]; try discriminate Hcl; simpl in H.
  - apply quote_cancel in H as [-> H]. injection H as -> ->. auto.
  - apply number_cancel in H as (-> & -> & ->); auto; apply delim_not_num; assumption.
  - injection H as -> ->. auto.
  - injection H as -> ->. auto.
  - injection H as -> ->. auto.
Qed.

Lemma joinComma_map_cons {A} (f : A -> chars) (a : A) (t : list A) :
  joinComma (map f (a :: t)) =
  f a ++ match t with [] => [] | _ :: _ => ","%char :: joinComma (map f t) end.
Proof. destruct t; simpl; [rewrite app_nil_r|]; reflexivity. Qed.

Lemma joinComma_cancel {A} (f : A -> chars) (close : ascii) :
  (forall a1 a2 d1 d2 r1 r2, delim d1 = true -> delim d2 = true ->
     f a1 ++ d1 :: r1 = f a2 ++ d2 :: r2 -> a1 = a2 /\ d1 = d2 /\ r1 = r2) ->
  (forall a, exists c t, f a = c :: t /\ c <> close) ->
  delim close = true -> close <> ","%char ->
  forall l1 l2 r1 r2,
    joinComma (map f l1) ++ close :: r1 = joinComma (map f l2) ++ close :: r2 ->
    l1 = l2 /\ r1 = r2.
Proof.
  intros Hf Hhd Hcl Hne. assert (delim ","%char = true) as Hc by reflexivity.
  induction l1 as [|a1 t1 IH]; intros [|a2 t2] r1 r2 H.
  - injection H as ->. auto.
  - exfalso. rewrite joinComma_map_cons in H. destruct (Hhd a2) as (c & t & Ef & Hc').
    rewrite Ef in H. injection H as <- _. contradiction.
  - exfalso. rewrite joinComma_map_cons in H. destruct (Hhd a1) as (c & t & Ef & Hc').
    rewrite Ef in H. injection H as -> _. contradiction.
  - rewrite !joinComma_map_cons, <- !app_assoc in H.
    destruct t1 as [|b1 t1'], t2 as [|b2 t2']; cbv beta iota in H; simpl app in H.
    + apply Hf in H as (-> & _ & ->); auto.
    + apply Hf in H as (_ & E & _); auto. contradiction.
    + apply Hf in H as (_ & E & _); auto. symmetry in E. contradiction.
    + apply Hf in H as (-> & _ & H); auto.
      destruct (IH (b2 :: t2') r1 r2) as [E ->]; [exact H|]. rewrite E. auto.
Qed.

Lemma cons_tail {A} (a b : A) (l1 l2 : list A) : a :: l1 = b :: l2 -> l1 = l2.
Proof. intros H. injection H as _ H. exact H. Qed.

Lemma paramEntry_cancel (a1 a2 : string * Prim) (d1 d2 : ascii) (r1 r2 : chars) :
  delim d1 = true -> delim d2 = true ->
  paramEntry a1 ++ d1 :: r1 = paramEntry a2 ++ d2 :: r2 -> a1 = a2 /\ d1 = d2 /\ r1 = r2.
Proof.
  destruct a1 as [k1 v1], a2 as [k2 v2]. unfold paramEntry, entry. cbn [fst snd].
  intros D1 D2 H. rewrite <- !app_assoc in H. cbn [app] in H.
  apply quote_cancel in H as [-> H]. apply cons_tail in H.
  apply prim_cancel in H as (-> & -> & ->); auto.
Qed.

Lemma paramEntry_head (a : string * Prim) : exists c t, paramEntry a = c :: t /\ c <> "}"%char.
Proof. eexists _, _. split; [reflexivity|]. discriminate. Qed.

Lemma string_of_list_ascii_inj (l1 l2 : chars) :
  string_of_list_ascii l1 = string_of_list_ascii l2 -> l1 = l2.
Proof.
  intros H. rewrite <- (list_ascii_of_string_of_list_ascii l1),
    <- (list_ascii_of_string_of_list_ascii l2), H. reflexivity.
Qed.

(** Two flat parameter objects serialise alike exactly when they are the
    same list of keys and values, in the same order. *)
Lemma stringifyParams_inj (p1 p2 : Params) :
  stringifyParams p1 = stringifyParams p2 <-> p1 = p2.
Proof.
  split; [|intros ->; reflexivity].
  unfold stringifyParams, obj. intros H. apply string_of_list_ascii_inj in H.
  apply cons_tail in H. change (fun kv : string * Prim => entry kv.1 (stringifyPrim kv.2)) with paramEntry in H.
  apply (joinComma_cancel paramEntry "}"%char paramEntry_cancel paramEntry_head) in H
    as [-> _]; [reflexivity|reflexivity|discriminate].
Qed.

End JsonFacts.

(* ------------------------------------------------------------------ *)
(** ** Fingerprint *)

Module FingerprintFacts.
Import Fingerprint FingerprintData JsonClasses JsonFacts.

Ltac app_norm := repeat progress (rewrite <- ?app_assoc; cbn [app]).
Ltac app_norm_in H := repeat progress (rewrite <- ?app_assoc in H; cbn [app] in H).

Lemma elementJson_fp (e : InteractiveElement) : elementJson e = elemJsonOf (fpElem e).
Proof. destruct e as [? ? []]; reflexivity. Qed.

Lemma computeStateHash_fp (o : BrowserState) :
  computeStateHash o = string_of_list_ascii (hashOf (fpData o)).
Proof.
  unfold computeStateHash, hashOf, fpData. rewrite map_map.
  rewrite (map_ext elementJson (fun e => elemJsonOf (fpElem e))); [reflexivity|].
  apply elementJson_fp.
Qed.

Lemma elemJsonOf_chars (t : string) (o : option string) (x y : Z) (r : chars) :
  elemJsonOf (t, o, x, y) ++ r =
  "{"%char :: quote "tag" ++ ":"%char :: quote t ++ ","%char ::
  (match o with Some s => quote "text" ++ ":"%char :: quote s ++ [","%char] | None => [] end) ++
  quote "x" ++ ":"%char :: number x ++ ","%char :: quote "y" ++ ":"%char :: number y ++ "}"%char :: r.
Proof.
  destruct o; unfold elemJsonOf, obj, entry; cbn [joinComma app]; app_norm; reflexivity.
Qed.

Lemma elemJsonOf_cancel (a1 a2 : string * option string * Z * Z) (r1 r2 : chars) :
  elemJsonOf a1 ++ r1 = elemJsonOf a2 ++ r2 -> a1 = a2 /\ r1 = r2.
Proof.
  destruct a1 as [[[t1 o1] x1] y1], a2 as [[[t2 o2] x2] y2].
  rewrite !elemJsonOf_chars. intros H. apply cons_tail in H.
  apply quote_cancel in H as [_ H]. apply cons_tail in H.
  apply quote_cancel in H as [-> H]. apply cons_tail in H.
  assert (o1 = o2 /\
          quote "x" ++ ":"%char :: number x1 ++ ","%char :: quote "y" ++ ":"%char ::
            number y1 ++ "}"%char :: r1 =
          quote "x" ++ ":"%char :: number x2 ++ ","%char :: quote "y" ++ ":"%char ::
            number y2 ++ "}"%char :: r2) as [-> H'].
  { destruct o1 as [s1|], o2 as [s2|]; app_norm_in H.
    - apply quote_cancel in H as [_ H]. apply cons_tail in H.
      apply quote_cancel in H as [-> H]. apply cons_tail in H. auto.
    - apply quote_cancel in H as [E _]. discriminate E.
    - apply quote_cancel in H as [E _]. discriminate E.
    - auto. }
  apply quote_cancel in H' as [_ H']. apply cons_tail in H'.
  apply number_cancel in H' as (-> & _ & H'); [|reflexivity|reflexivity].
  apply quote_cancel in H' as [_ H']. apply cons_tail in H'.
  apply number_cancel in H' as (-> & _ & ->); [|reflexivity|reflexivity]. auto.
Qed.

Lemma elemJsonOf_delim (a1 a2 : string * option string * Z * Z) (d1 d2 : ascii) (r1 r2 : chars) :
  delim d1 = true -> delim d2 = true ->
  elemJsonOf a1 ++ d1 :: r1 = elemJsonOf a2 ++ d2 :: r2 -> a1 = a2 /\ d1 = d2 /\ r1 = r2.
Proof.
  intros _ _ H. apply elemJsonOf_cancel in H as [-> H]. injection H as -> ->. auto.
Qed.

Lemma elemJsonOf_head (a : string * option string * Z * Z) :
  exists c t, elemJsonOf a = c :: t /\ c <> "]"%char.
Proof. destruct a as [[[? ?] ?] ?]. eexists _, _. split; [reflexivity|]. discriminate. Qed.

Lemma hashOf_inj d1 d2 : hashOf d1 = hashOf d2 -> d1 = d2.
Proof.
  destruct d1 as [[[u1 t1] n1] e1], d2 as [[[u2 t2] n2] e2].
  unfold hashOf, obj, arr, entry. cbn [joinComma app].
  intros H. app_norm_in H. apply cons_tail in H.
  apply quote_cancel in H as [_ H]. apply cons_tail in H.
  apply quote_cancel in H as [-> H]. apply cons_tail in H.
  apply quote_cancel in H as [_ H]. apply cons_tail in H.
  apply quote_cancel in H as [-> H]. apply cons_tail in H.
  apply quote_cancel in H as [_ H]. apply cons_tail in H.
  apply number_cancel in H as (En & _ & H); [|reflexivity|reflexivity].
  apply Nat2Z.inj in En as ->.
  apply quote_cancel in H as [_ H]. apply cons_tail in H. apply cons_tail in H.
  apply (joinComma_cancel elemJsonOf "]"%char elemJsonOf_delim elemJsonOf_head) in H
    as [-> _]; [reflexivity|reflexivity|discriminate].
Qed.

(** C6: the fingerprint is a function of, and determines, the url, the
    title, the element count and the first 20 elements' tag, text cut to
    50 characters, x and y: two snapshots get equal fingerprints exactly
    when they agree on all of these. *)
Theorem computeStateHash_determined (o1 o2 : BrowserState) :
  computeStateHash o1 = computeStateHash o2 <-> fpData o1 = fpData o2.
Proof.
  rewrite !computeStateHash_fp. split.
  - intros H. apply string_of_list_ascii_inj, hashOf_inj in H. exact H.
  - intros ->. reflexivity.
Qed.

End FingerprintFacts.

(* ------------------------------------------------------------------ *)
(** ** Loop detection *)

Module LoopFacts.
Import LoopDetector.

Lemma actionsOf_add (m : Memory.t) (a : ActionStep) :
  Memory.actionsOf (Memory.steps (Memory.addActionStep m a)) =
  Memory.actionsOf (Memory.steps m) ++ [a].
Proof. unfold Memory.actionsOf, Memory.addActionStep, Memory.push. simpl. rewrite omap_app. reflexivity. Qed.

Lemma slice_short {A} (l : list A) : length l <= 5 -> Memory.slice l (-5) = l.
Proof.
  intros H. unfold Memory.slice. simpl.
  replace (Z.max (Z.of_nat (length l) + -5) 0) with 0%Z by lia. reflexivity.
Qed.

Lemma coord_num (p : Params) (k : string) (z : Z) :
  lookupKey k p = Some (PNum z) -> coord p k = Some (inject_Z z).
Proof.
  intros H. unfold coord. rewrite H. simpl.
  destruct (Z.eqb_spec z 0) as [->|]; reflexivity.
Qed.

Lemma coord_clickAt (x y : Z) :
  coord (Scenarios.clickAt x y) "x" = Some (inject_Z x) /\
  coord (Scenarios.clickAt x y) "y" = Some (inject_Z y).
Proof. split; apply coord_num; reflexivity. Qed.

Lemma diffLt10_Z (a b : Z) :
  diffLt10 (Some (inject_Z a)) (Some (inject_Z b)) = Z.ltb (Z.abs (a - b)) 10.
Proof.
  unfold diffLt10, Qle_bool, Qabs, Qminus, Qplus, Qopp, inject_Z. cbn [Qnum Qden].
  rewrite !Z.mul_1_r, Z.ltb_antisym. replace (a + - b)%Z with (a - b)%Z by lia.
  reflexivity.
Qed.

Lemma similar_clicks (a b : ActionStep) (xa ya xb yb : Z) :
  toolName a = "click" -> toolName b = "click" ->
  parameters a = Scenarios.clickAt xa ya -> parameters b = Scenarios.clickAt xb yb ->
  actionsAreSimilar a b = Z.ltb (Z.abs (xa - xb)) 10 && Z.ltb (Z.abs (ya - yb)) 10.
Proof.
  intros Ha Hb Pa Pb. unfold actionsAreSimilar. rewrite Ha, Hb, Pa, Pb.
  destruct (coord_clickAt xa ya) as [-> ->], (coord_clickAt xb yb) as [-> ->].
  rewrite !diffLt10_Z. reflexivity.
Qed.

Lemma diffLt10_spec (a b : option Q) :
  diffLt10 a b = true <-> exists x y, a = Some x /\ b = Some y /\ (Qabs (x - y) < 10)%Q.
Proof.
  unfold diffLt10. destruct a as [x|], b as [y|]; split;
    try (intros (? & ? & ? & ? & ?); discriminate); try discriminate.
  - intros L. exists x, y. split; [reflexivity|split; [reflexivity|]].
    apply Qnot_le_lt. intros C. apply Qle_bool_iff in C. rewrite C in L. discriminate.
  - intros (? & ? & E1 & E2 & L). injection E1 as <-. injection E2 as <-.
    destruct (Qle_bool 10 (Qabs (x - y))) eqn:C; [|reflexivity].
    apply Qle_bool_iff in C. exfalso. exact (Qlt_not_le _ _ L C).
Qed.

Lemma actionsAreSimilar_spec (a b : ActionStep) :
  actionsAreSimilar a b = true <->
  toolName a = toolName b /\
  ((toolName a = "click" \/ toolName a = "type") ->
     exists xa xb ya yb,
       coord (parameters a) "x" = Some xa /\ coord (parameters b) "x" = Some xb /\
       coord (parameters a) "y" = Some ya /\ coord (parameters b) "y" = Some yb /\
       (Qabs (xa - xb) < 10)%Q /\ (Qabs (ya - yb) < 10)%Q) /\
  (toolName a <> "click" -> toolName a <> "type" -> parameters a = parameters b).
Proof.
  unfold actionsAreSimilar.
  destruct (String.eqb_spec (toolName a) (toolName b)) as [Hn|Hn]; cbn [negb];
    [|split; [discriminate|intros [? _]; contradiction]].
  destruct (String.eqb_spec (toolName a) "click") as [Hc|Hc],
           (String.eqb_spec (toolName a) "type") as [Ht|Ht]; cbn [orb].
  1-3: assert (Hct : toolName a = "click" \/ toolName a = "type") by tauto;
       rewrite andb_true_iff, !diffLt10_spec; split;
       [intros [(xa & xb & E1 & E2 & L1) (ya & yb & E3 & E4 & L2)];
        split; [exact Hn|split; [intros _; exists xa, xb, ya, yb; repeat split; assumption|tauto]]
       |intros (_ & H & _); destruct (H Hct) as (xa & xb & ya & yb & E1 & E2 & E3 & E4 & L1 & L2);
        split; eauto].
  destruct (String.eqb_spec (stringifyParams (parameters a)) (stringifyParams (parameters b)))
    as [E|E]; split.
  - intros _. apply JsonFacts.stringifyParams_inj in E.
    repeat split; auto. intros [|]; contradiction.
  - reflexivity.
  - discriminate.
  - intros (_ & _ & H). exfalso. apply E. rewrite H; auto.
Qed.

Lemma recent_of_short (m : Memory.t) :
  length (Memory.actionsOf (Memory.steps m)) <= 5 ->
  Memory.getRecentActions m 5 = Memory.actionsOf (Memory.steps m).
Proof. intros H. unfold Memory.getRecentActions. apply slice_short, H. Qed.

(** C4: after clicks at (100,100), (103,98), (105,101) and then an action
    similar to none of them are appended to a Memory holding no action,
    [detectLoop] on the recent actions reports looping after the third
    click only, with a count of 3; two actions are similar exactly when
    they have the same tool name and, for click and type, both coordinate
    deltas are under 10 (each coordinate read as JS [(v || 0)] converted by
    ToNumber, numeric strings included), and for any other tool equal
    parameters. *)
Theorem detectLoop_three_clicks (m0 : Memory.t) (a1 a2 a3 a4 : ActionStep)
    (H0 : Memory.actionsOf (Memory.steps m0) = [])
    (N1 : toolName a1 = "click") (P1 : parameters a1 = Scenarios.clickAt 100 100)
    (N2 : toolName a2 = "click") (P2 : parameters a2 = Scenarios.clickAt 103 98)
    (N3 : toolName a3 = "click") (P3 : parameters a3 = Scenarios.clickAt 105 101)
    (D4 : Forall (fun a => actionsAreSimilar a a4 = false) [a1; a2; a3]) :
  let m1 := Memory.addActionStep m0 a1 in
  let m2 := Memory.addActionStep m1 a2 in
  let m3 := Memory.addActionStep m2 a3 in
  let m4 := Memory.addActionStep m3 a4 in
  map (fun m => isLooping (detectLoop (Memory.getRecentActions m 5))) [m1; m2; m3; m4] =
    [false; false; true; false] /\
  message (detectLoop (Memory.getRecentActions m3 5)) =
    Some ("LOOP DETECTED: Repeated click " +:+ showZ 3 +:+ " times. Try a different approach!") /\
  (forall a b : ActionStep,
     actionsAreSimilar a b = true <->
     toolName a = toolName b /\
     ((toolName a = "click" \/ toolName a = "type") ->
        exists xa xb ya yb,
          coord (parameters a) "x" = Some xa /\ coord (parameters b) "x" = Some xb /\
          coord (parameters a) "y" = Some ya /\ coord (parameters b) "y" = Some yb /\
          (Qabs (xa - xb) < 10)%Q /\ (Qabs (ya - yb) < 10)%Q) /\
     (toolName a <> "click" -> toolName a <> "type" -> parameters a = parameters b)).
Proof.
  intros m1 m2 m3 m4.
  assert (R1 : Memory.getRecentActions m1 5 = [a1]).
  { unfold m1. rewrite recent_of_short; rewrite actionsOf_add, H0; [reflexivity|simpl; lia]. }
  assert (R2 : Memory.getRecentActions m2 5 = [a1; a2]).
  { unfold m2, m1. rewrite recent_of_short; rewrite !actionsOf_add, H0; [reflexivity|simpl; lia]. }
  assert (R3 : Memory.getRecentActions m3 5 = [a1; a2; a3]).
  { unfold m3, m2, m1. rewrite recent_of_short; rewrite !actionsOf_add, H0; [reflexivity|simpl; lia]. }
  assert (R4 : Memory.getRecentActions m4 5 = [a1; a2; a3; a4]).
  { unfold m4, m3, m2, m1. rewrite recent_of_short; rewrite !actionsOf_add, H0; [reflexivity|simpl; lia]. }
  pose proof (similar_clicks _ _ _ _ _ _ N1 N2 P1 P2) as S12.
  pose proof (similar_clicks _ _ _ _ _ _ N2 N2 P2 P2) as S22.
  pose proof (similar_clicks _ _ _ _ _ _ N1 N3 P1 P3) as S13.
  pose proof (similar_clicks _ _ _ _ _ _ N2 N3 P2 P3) as S23.
  pose proof (similar_clicks _ _ _ _ _ _ N3 N3 P3 P3) as S33.
  inversion D4 as [|? ? F14 D4']; inversion D4' as [|? ? F24 D4'']; inversion D4'' as [|? ? F34 _].
  split; [|split; [|exact actionsAreSimilar_spec]].
  - cbn [map]. rewrite R1, R2, R3, R4.
    unfold detectLoop; rewrite !slice_short by (simpl; lia); cbn -[actionsAreSimilar].
    rewrite S12, S22, S13, S23, S33, F14, F24, F34. cbn.
    destruct (actionsAreSimilar a4 a4); reflexivity.
  - rewrite R3. unfold detectLoop; rewrite slice_short by (simpl; lia); cbn -[actionsAreSimilar].
    rewrite S13, S23, S33. cbn. rewrite N3. reflexivity.
Qed.

Lemma diffLt10_sym a b : diffLt10 a b = diffLt10 b a.
Proof. unfold diffLt10. destruct a as [a|], b as [b|]; try reflexivity. rewrite Qabs_Qminus. reflexivity. Qed.

(** [actionsAreSimilar] is symmetric. *)
Theorem actionsAreSimilar_sym (a b : ActionStep) :
  actionsAreSimilar a b = actionsAreSimilar b a.
Proof.
  unfold actionsAreSimilar. rewrite (String.eqb_sym (toolName b)).
  destruct (String.eqb (toolName a) (toolName b)) eqn:E; simpl; [|reflexivity].
  apply String.eqb_eq in E. rewrite E.
  rewrite (diffLt10_sym (coord (parameters a) "x")), (diffLt10_sym (coord (parameters a) "y")).
  destruct (_ || _); [reflexivity|apply String.eqb_sym].
Qed.

Lemma slice5_app {A} (pre l : list A) :
  (5 <= length l)%nat -> Memory.slice (pre ++ l) (-5) = Memory.slice l (-5).
Proof.
  intros H. unfold Memory.slice. simpl. rewrite length_app.
  replace (Z.max (Z.of_nat (length pre + length l) + -5) 0)
    with (Z.of_nat (length pre) + (Z.of_nat (length l) - 5))%Z by lia.
  replace (Z.max (Z.of_nat (length l) + -5) 0) with (Z.of_nat (length l) - 5)%Z by lia.
  rewrite Z2Nat.inj_add by lia. rewrite Nat2Z.id.
  rewrite <- drop_drop, drop_app_length. reflexivity.
Qed.

Lemma last_app_nonempty {A} (pre l : list A) : l <> [] -> last (pre ++ l) = last l.
Proof.
  intros H. destruct l as [|a l] using rev_ind; [contradiction|].
  rewrite app_assoc, !last_snoc. reflexivity.
Qed.

(** [detectLoop] only looks at the last five actions: the actions before
    them never change its verdict or message. *)
Theorem detectLoop_last_five (pre l : list ActionStep) (H : (5 <= length l)%nat) :
  detectLoop (pre ++ l) = detectLoop l.
Proof.
  unfold detectLoop. rewrite length_app.
  replace (Nat.ltb (length pre + length l) 2) with false by (symmetry; apply Nat.ltb_ge; lia).
  replace (Nat.ltb (length l) 2) with false by (symmetry; apply Nat.ltb_ge; lia).
  rewrite last_app_nonempty by (intros ->; simpl in H; lia).
  rewrite slice5_app by exact H. reflexivity.
Qed.

Lemma slice5_length {A} (l : list A) : (length (Memory.slice l (-5)) <= 5)%nat.
Proof. unfold Memory.slice. simpl. rewrite length_drop. lia. Qed.

(** When [detectLoop] reports a loop, it was given at least two actions,
    and its message names the last action's tool and a repetition count
    between 3 and 5. *)
Theorem detectLoop_looping (l : list ActionStep) (H : isLooping (detectLoop l) = true) :
  (2 <= length l)%nat /\
  exists a n, last l = Some a /\ (3 <= n <= 5)%Z /\
    message (detectLoop l) =
      Some ("LOOP DETECTED: Repeated " +:+ toolName a +:+ " " +:+ showZ n +:+
            " times. Try a different approach!").
Proof.
  revert H. unfold detectLoop.
  destruct (Nat.ltb (length l) 2) eqn:E1; [discriminate|].
  apply Nat.ltb_ge in E1.
  destruct (last l) as [a|]; [|discriminate].
  set (n := Z.of_nat (length (List.filter _ (Memory.slice l (-5))))).
  assert (Hn : (n <= 5)%Z).
  { unfold n. pose proof (slice5_length l).
    pose proof (List.filter_length_le (fun b => actionsAreSimilar b a) (Memory.slice l (-5))). lia. }
  destruct (Z.leb maxRepetitions n) eqn:E2; [|discriminate].
  intros _. apply Z.leb_le in E2. unfold maxRepetitions in E2.
  split; [exact E1|]. exists a, n. auto.
Qed.

End LoopFacts.

(* ------------------------------------------------------------------ *)
(** ** Logger.wrapText *)

Module LoggerFacts.
Import Planning Logger.
Local Set Warnings "-inconsistent-scopes".

Local Notation nonl l := (Forall (fun c => Ascii.eqb c newline = false) l).
Local Notation noWs l := (Forall (fun c => isWs c = false) l).

Lemma noWs_nonl l : noWs l -> nonl l.
Proof. intros H. eapply Forall_impl; [exact H|]. intros c Hc. destruct (Ascii.eqb_spec c newline) as [->|]; [discriminate|reflexivity]. Qed.

Lemma noWs_nosp l : noWs l -> Forall (fun c => Ascii.eqb c space = false) l.
Proof. intros H. eapply Forall_impl; [exact H|]. intros c Hc. destruct (Ascii.eqb_spec c space) as [->|]; [discriminate|reflexivity]. Qed.

Lemma splitSp_nonempty s : splitSp s <> [].
Proof.
  induction s as [|c s IH]; simpl; [discriminate|].
  destruct (Ascii.eqb c space); [discriminate|].
  destruct (splitSp s); [contradiction|discriminate].
Qed.

Lemma splitSp_app_sp w s :
  Forall (fun c => Ascii.eqb c space = false) w -> splitSp (w ++ space :: s) = w :: splitSp s.
Proof.
  induction 1 as [|c w Hc Hw IH]; [reflexivity|]. simpl. rewrite Hc, IH. reflexivity.
Qed.

Lemma splitSp_nosp w : Forall (fun c => Ascii.eqb c space = false) w -> splitSp w = [w].
Proof. induction 1 as [|c w Hc Hw IH]; [reflexivity|]. simpl. rewrite Hc, IH. reflexivity. Qed.

Lemma splitSp_words_nonl s : Forall (fun w => noWs w) (splitSp s) -> nonl s.
Proof.
  induction s as [|c s IH]; intros H; [constructor|]. simpl in H.
  destruct (Ascii.eqb_spec c space) as [->|Hne].
  - inversion H as [|? ? _ Ht]; subst. constructor; [reflexivity|]. apply IH, Ht.
  - destruct (splitSp s) as [|h r] eqn:E; [exfalso; exact (splitSp_nonempty s E)|].
    inversion H as [|? ? Hh Hr]; subst. inversion Hh as [|? ? Hc Hh']; subst.
    constructor; [destruct (Ascii.eqb_spec c newline) as [->|]; [discriminate|reflexivity]|].
    apply IH. constructor; assumption.
Qed.

Lemma splitNl_nonl s : nonl s -> splitNl s = [s].
Proof.
  intros H. destruct (PlanningFacts.splitNl_app_nonl s [] H) as (l0 & ls & E1 & E2).
  simpl in E1. injection E1 as <- <-. rewrite app_nil_r in E2. exact E2.
Qed.

Lemma splitNl_app_nl h s : nonl h -> splitNl (h ++ newline :: s) = h :: splitNl s.
Proof.
  intros H. destruct (PlanningFacts.splitNl_app_nonl h (newline :: s) H) as (l0 & ls & E1 & E2).
  simpl in E1. injection E1 as <- <-. rewrite app_nil_r in E2. exact E2.
Qed.

Lemma joinNl_width ls :
  Forall (fun l => length l <= MAX_WIDTH /\ nonl l) ls ->
  Forall (fun l => length l <= MAX_WIDTH) (splitNl (joinNl ls)).
Proof.
  induction 1 as [|a r [Ha Na] Hr IH]; [repeat constructor; cbv; lia|].
  destruct r as [|b r].
  - simpl. rewrite splitNl_nonl by exact Na. constructor; [exact Ha|constructor].
  - change (joinNl (a :: b :: r)) with (a ++ newline :: joinNl (b :: r)).
    rewrite splitNl_app_nl by exact Na. constructor; assumption.
Qed.

Lemma trimEnd_snoc l c : isWs c = false -> trimEnd (l ++ [c]) = l ++ [c].
Proof.
  intros Hc. induction l as [|a l IH]; simpl; [rewrite Hc; reflexivity|].
  rewrite IH. destruct l; reflexivity.
Qed.

Local Notation endsOk l :=
  ((exists c r, l = c :: r /\ isWs c = false) /\ (exists r c, l = r ++ [c] /\ isWs c = false)).

Lemma trim_endsOk l : endsOk l -> trim l = l.
Proof.
  intros [(c & r & -> & Hc) (r' & d & E & Hd)]. unfold trim. simpl. rewrite Hc.
  rewrite E. apply trimEnd_snoc, Hd.
Qed.

Lemma endsOk_word w : w <> [] -> noWs w -> endsOk w.
Proof.
  intros Hne Hw. split.
  - destruct w as [|c r]; [contradiction|]. exists c, r. split; [reflexivity|]. inversion Hw; assumption.
  - destruct (exists_last Hne) as (r & d & E). exists r, d. split; [exact E|].
    rewrite E in Hw. apply Forall_app in Hw as [_ Hd]. inversion Hd; assumption.
Qed.

Lemma endsOk_join a w : endsOk a -> endsOk w -> endsOk (a ++ space :: w).
Proof.
  intros [(c & r & -> & Hc) _] [_ (r' & d & -> & Hd)]. split.
  - exists c, (r ++ space :: r' ++ [d]). auto.
  - exists ((c :: r) ++ space :: r'), d. split; [|exact Hd]. rewrite <- app_assoc. reflexivity.
Qed.

Lemma nonl_trunc w : nonl w -> nonl (take (MAX_WIDTH - 3) w ++ lit "...").
Proof.
  intros H. apply Forall_app. split; [apply Forall_take, H|]. repeat constructor.
Qed.

Local Notation curOk cur :=
  (length cur <= MAX_WIDTH /\ nonl cur /\ (cur = [] \/ endsOk cur)).

Local Notation linesOk lines :=
  (Forall (fun l => length l <= MAX_WIDTH /\ nonl l) lines).

Lemma linesOk_push lines cur :
  linesOk lines -> curOk cur ->
  linesOk (match cur with [] => lines | _ => lines ++ [cur] end).
Proof.
  intros Hl (Lc & Nc & _). destruct cur as [|c r]; [exact Hl|].
  apply Forall_app. split; [exact Hl|]. constructor; [split; assumption|constructor].
Qed.

Lemma wrapStep_ok lines cur word :
  linesOk lines -> curOk cur -> word <> [] -> noWs word ->
  linesOk (wrapStep (lines, cur) word).1 /\ curOk (wrapStep (lines, cur) word).2.
Proof.
  intros Hl Hc Hne Hw. pose proof (endsOk_word word Hne Hw) as Ew.
  pose proof (noWs_nonl word Hw) as Nw.
  unfold wrapStep. destruct (Nat.leb_spec (length (trim (cur ++ space :: word))) MAX_WIDTH) as [Le|Gt].
  - cbn [fst snd]. split; [exact Hl|]. destruct Hc as (Lc & Nc & [->|Ec]).
    + cbn [app] in Le. replace (trim (space :: word)) with (trim word) in Le by reflexivity.
      rewrite trim_endsOk in Le by exact Ew. split; [exact Le|]. split; [exact Nw|right; exact Ew].
    + assert (Ej : endsOk (cur ++ space :: word)) by (apply endsOk_join; assumption).
      rewrite trim_endsOk in Le by exact Ej.
      destruct cur as [|c r]; [destruct Ec as [(? & ? & ? & _) _]; discriminate|].
      split; [exact Le|]. split; [|right; exact Ej].
      apply Forall_app. split; [exact Nc|]. constructor; [reflexivity|exact Nw].
  - pose proof (linesOk_push lines cur Hl Hc) as Hp.
    destruct (Nat.ltb_spec MAX_WIDTH (length word)) as [Lt|Ge]; cbn [fst snd].
    + split; [|exact Hc]. apply Forall_app. split; [exact Hp|]. constructor; [|constructor].
      split; [|apply nonl_trunc, Nw]. rewrite length_app, length_take. change (length (lit "...")) with 3. unfold MAX_WIDTH. lia.
    + split; [exact Hp|]. split; [exact Ge|]. split; [exact Nw|right; exact Ew].
Qed.

Lemma fold_wrapStep_ok words acc :
  linesOk acc.1 -> curOk acc.2 -> Forall (fun w => w <> [] /\ noWs w) words ->
  linesOk (fold_left wrapStep words acc).1 /\ curOk (fold_left wrapStep words acc).2.
Proof.
  revert acc. induction words as [|w words IH]; intros [lines cur] Hl Hc Hw; [auto|].
  inversion Hw as [|? ? [Hne Hnw] Hws]; subst. cbn [fold_left].
  destruct (wrapStep_ok lines cur w Hl Hc Hne Hnw) as [Hl' Hc'].
  apply IH; assumption.
Qed.

(** With single spaces between words that hold no other whitespace,
    every line of [wrapText text] fits in [MAX_WIDTH] characters. *)
Theorem wrapText_width (text : string)
    (H : Forall (fun w => w <> [] /\ Forall (fun c => isWs c = false) w) (splitSp (lit text))) :
  Forall (fun l => length l <= MAX_WIDTH) (splitNl (lit (wrapText text))).
Proof.
  unfold wrapText. destruct (Nat.leb_spec (length (lit text)) MAX_WIDTH) as [Le|Gt].
  - rewrite splitNl_nonl; [constructor; [exact Le|constructor]|].
    apply splitSp_words_nonl. eapply Forall_impl; [exact H|]. intros w [_ Hw]. exact Hw.
  - destruct (fold_left wrapStep (splitSp (lit text)) ([], [])) as [lines cur] eqn:F.
    destruct (fold_wrapStep_ok (splitSp (lit text)) ([], [])) as [Hl Hc];
      [constructor| split; [cbn; lia|split; [constructor|left; reflexivity]] | exact H |].
    rewrite F in Hl, Hc. cbn [fst snd] in Hl, Hc.
    unfold lit. rewrite list_ascii_of_string_of_list_ascii.
    apply joinNl_width, linesOk_push; assumption.
Qed.

Lemma wrapStep_first lines w :
  w <> [] -> noWs w -> length w <= MAX_WIDTH -> wrapStep (lines, []) w = (lines, w).
Proof.
  intros Hne Hw L. unfold wrapStep. cbn [app].
  replace (trim (space :: w)) with (trim w) by reflexivity.
  rewrite trim_endsOk by (apply endsOk_word; assumption).
  apply Nat.leb_le in L. rewrite L. reflexivity.
Qed.

Lemma wrapStep_join lines cur w :
  cur <> [] -> noWs cur -> w <> [] -> noWs w -> length cur + 1 + length w <= MAX_WIDTH ->
  wrapStep (lines, cur) w = (lines, cur ++ space :: w).
Proof.
  intros Hc Nc Hne Hw L. unfold wrapStep.
  rewrite trim_endsOk by (apply endsOk_join; apply endsOk_word; assumption).
  rewrite length_app. cbn [length]. replace (Nat.leb _ _) with true by (symmetry; apply Nat.leb_le; lia).
  destruct cur; [contradiction|reflexivity].
Qed.

Lemma wrapStep_long lines cur w :
  cur <> [] -> noWs cur -> w <> [] -> noWs w -> MAX_WIDTH < length w ->
  wrapStep (lines, cur) w = (lines ++ [cur; take (MAX_WIDTH - 3) w ++ lit "..."], cur).
Proof.
  intros Hc Nc Hne Hw L. unfold wrapStep.
  rewrite trim_endsOk by (apply endsOk_join; apply endsOk_word; assumption).
  rewrite length_app. cbn [length]. replace (Nat.leb _ _) with false by (symmetry; apply Nat.leb_gt; lia).
  apply Nat.ltb_lt in L. rewrite L.
  destruct cur; [contradiction|]. rewrite <- app_assoc. reflexivity.
Qed.

(** A word longer than [MAX_WIDTH] is cut to 77 characters and "...", and
    the line pending before it is printed a second time, joined with the
    words that follow. *)
Theorem wrapText_long_word_repeats (w1 L w3 : chars)
    (H1 : w1 <> []) (N1 : Forall (fun c => isWs c = false) w1)
    (HL : MAX_WIDTH < length L) (NL : Forall (fun c => isWs c = false) L)
    (H3 : w3 <> []) (N3 : Forall (fun c => isWs c = false) w3)
    (F : length w1 + 1 + length w3 <= MAX_WIDTH) :
  wrapText (string_of_list_ascii (w1 ++ space :: L ++ space :: w3)) =
  string_of_list_ascii (w1 ++ newline :: (take (MAX_WIDTH - 3) L ++ lit "...") ++
                        newline :: w1 ++ space :: w3).
Proof.
  assert (HLne : L <> []) by (intros ->; cbn in HL; lia).
  unfold wrapText, lit. rewrite list_ascii_of_string_of_list_ascii.
  replace (Nat.leb _ _) with false
    by (symmetry; apply Nat.leb_gt; rewrite length_app; cbn [length]; rewrite length_app; cbn [length]; lia).
  rewrite (splitSp_app_sp w1) by (apply noWs_nosp, N1).
  rewrite (splitSp_app_sp L) by (apply noWs_nosp, NL).
  rewrite (splitSp_nosp w3) by (apply noWs_nosp, N3).
  cbn [fold_left].
  rewrite wrapStep_first by (auto; lia).
  rewrite wrapStep_long by auto.
  rewrite wrapStep_join by auto.
  destruct w1 as [|c w1]; [contradiction|]. cbn [app joinNl]. reflexivity.
Qed.

End LoggerFacts.

(* ------------------------------------------------------------------ *)
(** ** ToolRegistry *)

Module RegistryFacts.

Section Facts.
Context {Tool : Type}.
Implicit Types (m : ToolRegistry.t (Tool:=Tool)) (tool : Tool).

Lemma get_mapSet name tool m other :
  ToolRegistry.get other (ToolRegistry.mapSet name tool m) =
  if String.eqb other name then Some tool else ToolRegistry.get other m.
Proof.
  induction m as [|[k v] r IH]; simpl.
  - destruct (String.eqb other name); reflexivity.
  - destruct (String.eqb_spec name k) as [->|Hne]; simpl.
    + destruct (String.eqb other k); reflexivity.
    + rewrite IH. destruct (String.eqb_spec other name) as [Eo|]; [|reflexivity].
      subst other. apply String.eqb_neq in Hne. rewrite Hne. reflexivity.
Qed.

(** Registering a tool makes [get] return it under its name and leaves
    every other name's tool as it was. *)
Theorem register_get name tool m :
  ToolRegistry.get name (ToolRegistry.register name tool m) = Some tool /\
  (forall other, other <> name ->
     ToolRegistry.get other (ToolRegistry.register name tool m) = ToolRegistry.get other m).
Proof.
  unfold ToolRegistry.register. split.
  - rewrite get_mapSet, String.eqb_refl. reflexivity.
  - intros other Hne. rewrite get_mapSet. apply String.eqb_neq in Hne. rewrite Hne. reflexivity.
Qed.

Lemma has_get name m : ToolRegistry.has name m = true <-> exists tool, ToolRegistry.get name m = Some tool.
Proof.
  induction m as [|[k v] r IH]; simpl.
  - split; [discriminate|intros [? ?]; discriminate].
  - destruct (String.eqb name k); simpl; [split; eauto|exact IH].
Qed.

Lemma get_notin name m : name ∉ ToolRegistry.list m -> ToolRegistry.get name m = None.
Proof.
  unfold ToolRegistry.list. induction m as [|[k v] r IH]; intros Hn; simpl; [reflexivity|].
  destruct (String.eqb_spec name k) as [->|]; [exfalso; apply Hn; left|].
  apply IH. intros Hin. apply Hn. right. exact Hin.
Qed.

Lemma has_list name m : ToolRegistry.has name m = bool_decide (name ∈ ToolRegistry.list m).
Proof.
  unfold ToolRegistry.list, ToolRegistry.has.
  induction m as [|[k v] r IH]; cbn [existsb map fst].
  - rewrite bool_decide_false; [reflexivity|]. intros Hin; inversion Hin.
  - fold (ToolRegistry.has name r) in *. rewrite IH. destruct (String.eqb_spec name k) as [->|Hne].
    + symmetry. apply bool_decide_true. left.
    + cbn [orb]. apply bool_decide_ext. rewrite elem_of_cons. split; [auto|intros [?|?]; [contradiction|assumption]].
Qed.

Lemma list_mapSet name tool m :
  ToolRegistry.list (ToolRegistry.mapSet name tool m) =
  if ToolRegistry.has name m then ToolRegistry.list m else ToolRegistry.list m ++ [name].
Proof.
  unfold ToolRegistry.list. induction m as [|[k v] r IH]; simpl; [reflexivity|].
  destruct (String.eqb_spec name k) as [->|Hne]; simpl; [reflexivity|].
  rewrite IH. destruct (ToolRegistry.has name r); reflexivity.
Qed.

Lemma mapDelete_has name m : (ToolRegistry.mapDelete name m).1 = ToolRegistry.has name m.
Proof.
  induction m as [|[k v] r IH]; simpl; [reflexivity|].
  destruct (String.eqb name k); [reflexivity|].
  destruct (ToolRegistry.mapDelete name r) as [b r'] eqn:E. simpl in *. exact IH.
Qed.

Lemma mapDelete_other name m other : other <> name ->
  ToolRegistry.get other (ToolRegistry.mapDelete name m).2 = ToolRegistry.get other m.
Proof.
  intros Hne. induction m as [|[k v] r IH]; simpl; [reflexivity|].
  destruct (String.eqb_spec name k) as [->|Hk].
  - apply String.eqb_neq in Hne. rewrite Hne. reflexivity.
  - destruct (ToolRegistry.mapDelete name r) as [b r'] eqn:E. simpl in *. rewrite IH. reflexivity.
Qed.

Lemma mapDelete_list name m :
  NoDup (ToolRegistry.list m) ->
  NoDup (ToolRegistry.list (ToolRegistry.mapDelete name m).2) /\
  (name ∉ ToolRegistry.list (ToolRegistry.mapDelete name m).2) /\
  (forall x, x ∈ ToolRegistry.list (ToolRegistry.mapDelete name m).2 -> x ∈ ToolRegistry.list m).
Proof.
  unfold ToolRegistry.list. induction m as [|[k v] r IH]; intros Hnd; simpl.
  - split; [constructor|]. split; [intros Hin; inversion Hin|auto].
  - simpl in Hnd. apply NoDup_cons in Hnd as [Hk Hnd].
    destruct (String.eqb_spec name k) as [->|Hne]; simpl.
    + split; [exact Hnd|]. split; [exact Hk|]. intros x Hx. right. exact Hx.
    + destruct (IH Hnd) as (N & Ni & S).
      destruct (ToolRegistry.mapDelete name r) as [b r'] eqn:E. simpl in *.
      split; [apply NoDup_cons; split; [intros Hin; apply Hk, S, Hin|exact N]|].
      split.
      * rewrite elem_of_cons. intros [?|?]; [contradiction|apply Ni; assumption].
      * intros x Hx. rewrite elem_of_cons in Hx |- *. destruct Hx as [?|Hx]; [left; assumption|right; apply S, Hx].
Qed.

Lemma reachable_NoDup m : ToolRegistry.reachable m -> NoDup (ToolRegistry.list m).
Proof.
  induction 1 as [|name tool m _ IH|name m _ IH|m _ IH].
  - constructor.
  - unfold ToolRegistry.register. rewrite list_mapSet, has_list.
    case_bool_decide as Hin; [exact IH|].
    apply NoDup_app. split; [exact IH|]. split; [|apply NoDup_singleton].
    intros x Hx Hy. apply list_elem_of_singleton in Hy. subst. contradiction.
  - apply mapDelete_list, IH.
  - constructor.
Qed.

(** [unregister] returns whether the name was registered; afterwards the
    name has no tool, and every other name keeps its tool. *)
Theorem unregister_get name m (R : ToolRegistry.reachable m) :
  (ToolRegistry.unregister name m).1 = ToolRegistry.has name m /\
  ToolRegistry.get name (ToolRegistry.unregister name m).2 = None /\
  (forall other, other <> name ->
     ToolRegistry.get other (ToolRegistry.unregister name m).2 = ToolRegistry.get other m).
Proof.
  unfold ToolRegistry.unregister. split; [apply mapDelete_has|]. split.
  - apply get_notin, mapDelete_list, reachable_NoDup, R.
  - intros other Hne. apply mapDelete_other, Hne.
Qed.

(** [list] never repeats a name; registering a new name appends it, and
    registering a name again keeps its position. *)
Theorem list_register name tool m (R : ToolRegistry.reachable m) :
  NoDup (ToolRegistry.list m) /\
  ToolRegistry.list (ToolRegistry.register name tool m) =
    if ToolRegistry.has name m then ToolRegistry.list m else ToolRegistry.list m ++ [name].
Proof. split; [apply reachable_NoDup, R|apply list_mapSet]. Qed.

Lemma fold_insert_lookup name (l : ToolRegistry.t (Tool:=Tool)) (acc : gmap string Tool) :
  NoDup (ToolRegistry.list l) ->
  fold_left ToolRegistry.setProperty l acc !! name =
  if String.eqb name "__proto__" then acc !! name
  else match ToolRegistry.get name l with Some v => Some v | None => acc !! name end.
Proof.
  unfold ToolRegistry.list. revert acc. induction l as [|[k v] r IH]; intros acc Hnd; simpl.
  { destruct (String.eqb name "__proto__"); reflexivity. }
  simpl in Hnd. apply NoDup_cons in Hnd as [Hk Hnd]. rewrite IH by exact Hnd.
  unfold ToolRegistry.setProperty. cbn [fst snd].
  destruct (String.eqb_spec name "__proto__") as [->|Hp].
  - destruct (String.eqb_spec k "__proto__") as [->|Hk']; [reflexivity|].
    apply lookup_insert_ne. congruence.
  - destruct (String.eqb_spec name k) as [->|Hne].
    + rewrite get_notin by exact Hk.
      destruct (String.eqb_spec k "__proto__"); [contradiction|]. apply lookup_insert_eq.
    + destruct (ToolRegistry.get name r); [reflexivity|].
      destruct (String.eqb k "__proto__"); [reflexivity|]. apply lookup_insert_ne. congruence.
Qed.

(** The record [getAISDKTools] hands to the AI SDK has as own properties
    exactly the registered tools, each under its name, except a tool
    registered as ["__proto__"], whose assignment sets the prototype. *)
Theorem getAISDKTools_lookup m (R : ToolRegistry.reachable m) name :
  ToolRegistry.getAISDKTools m !! name =
  if String.eqb name "__proto__" then None else ToolRegistry.get name m.
Proof.
  unfold ToolRegistry.getAISDKTools. rewrite fold_insert_lookup by (apply reachable_NoDup, R).
  destruct (String.eqb name "__proto__"); [apply lookup_empty|].
  destruct (ToolRegistry.get name m); [reflexivity|]. apply lookup_empty.
Qed.

End Facts.

End RegistryFacts.

(* ------------------------------------------------------------------ *)
(** ** The type tool *)

Module TypeToolFacts.
Import Agent BrowserTools.

Lemma lit_app (a b : string) : lit (a +:+ b) = lit a ++ lit b.
Proof. induction a as [|c a IH]; simpl; [reflexivity|]. unfold lit in *. simpl. rewrite IH. reflexivity. Qed.

Local Notation noNl l := (Forall (fun c => c <> Planning.newline) l).

Lemma noNl_app a b : noNl a -> noNl b -> noNl (a ++ b).
Proof. intros. apply Forall_app. auto. Qed.

Lemma uintE_noNl d : noNl (lit (NilEmpty.string_of_uint d)).
Proof. induction d; simpl; constructor; try assumption; discriminate. Qed.

Lemma showZ_noNl z : noNl (lit (showZ z)).
Proof.
  unfold showZ, NilZero.string_of_int.
  assert (U : forall d, noNl (lit (NilZero.string_of_uint d))).
  { intros d. unfold NilZero.string_of_uint. destruct d; try apply uintE_noNl.
    constructor; [discriminate|constructor]. }
  destruct (Z.to_int z); [apply U|]. constructor; [discriminate|apply U].
Qed.

Lemma displayText_noNl text : noNl (lit (displayText text)).
Proof.
  unfold displayText, lit at 1. rewrite list_ascii_of_string_of_list_ascii.
  induction (lit text) as [|c r IH]; simpl; [constructor|].
  destruct (Ascii.eqb_spec c Planning.newline) as [->|Hne]; simpl.
  - constructor; [discriminate|]. constructor; [discriminate|exact IH].
  - constructor; assumption.
Qed.

Section Page.
Variable World : Type.
Variable addVisualMarker : Z -> Z -> string -> Z -> World -> World * Exc unit.
Variable mouseMove : Z -> Z -> World -> World * Exc unit.
Variable mouseClick : Z -> Z -> World -> World * Exc unit.
Variable waitForTimeout : Z -> World -> World * Exc unit.
Variable keyboardType : string -> World -> World * Exc unit.
Variable keyboardPress : string -> World -> World * Exc unit.

Lemma pbind_ok {A B} (m : PM World A) (k : A -> PM World B) w w' b :
  PM_bind World A B k m w = (w', Ok b) -> exists a w1, m w = (w1, Ok a) /\ k a w1 = (w', Ok b).
Proof.
  unfold PM_bind. destruct (m w) as [w1 [a|e]]; [|discriminate]. intros H. eauto.
Qed.

Lemma rethrow_ok {A} p (m : PM World A) w w' a :
  rethrow World p m w = (w', Ok a) -> m w = (w', Ok a).
Proof. unfold rethrow. destruct (m w) as [w1 [x|e]]; [auto|discriminate]. Qed.

Ltac peel H :=
  repeat (let a := fresh "a" in let w1 := fresh "w" in let E := fresh "E" in
          apply pbind_ok in H as (a & w1 & E & H)).

(** Whenever the type tool succeeds, its summary is one line: the text's
    newlines are shown as the two characters \n. *)
Theorem createTypeTool_one_line typingDelay x y text w w' msg
    (H : createTypeTool World addVisualMarker mouseMove mouseClick waitForTimeout keyboardType
           keyboardPress typingDelay x y text w = (w', Ok msg)) :
  ~ In Planning.newline (lit msg).
Proof.
  unfold createTypeTool in H. apply rethrow_ok in H. cbv zeta in H. peel H.
  injection H as _ <-. intros Hin.
  assert (N : noNl (lit ("Typed " +:+ dqs +:+ displayText text +:+ dqs +:+ " at (" +:+ showZ x +:+ ", " +:+
          showZ y +:+ ")" +:+ (if endsWithNewline text then " and pressed Enter" else "")))).
  { rewrite !lit_app.
    repeat apply noNl_app; try apply showZ_noNl; try apply displayText_noNl;
      try (destruct (endsWithNewline text)); repeat constructor; discriminate. }
  rewrite List.Forall_forall in N. exact (N _ Hin eq_refl).
Qed.

End Page.

Lemma recTypeChars d cs (w : RecPage) :
  typeChars RecPage (fun ms w => (w ++ [EWait ms], Ok tt)) (fun s w => (w ++ [EType s], Ok tt)) d cs w =
  (w ++ flat_map (fun c => [EType (String c EmptyString); EWait d]) cs, Ok tt).
Proof.
  revert w. induction cs as [|c cs IH]; intros w; simpl; [rewrite app_nil_r; reflexivity|].
  cbv [mbind PM_bind]. rewrite IH, <- !app_assoc. reflexivity.
Qed.

(** The type tool clicks the field, types the text one character at a time
    (each followed by the typing delay) without its final newline, and
    presses Enter afterwards exactly when the text ends with a newline. *)
Theorem createTypeTool_events typingDelay x y text w :
  (recTypeTool typingDelay x y text w).1 =
  w ++ [EMarker x y "blue" 2000; EMove x y; EWait 2000; EClick x y; EWait 1000] ++
  flat_map (fun c => [EType (String c EmptyString); EWait typingDelay])
    (if endsWithNewline text then removelast (lit text) else lit text) ++
  (if endsWithNewline text then [EPress "Enter"] else []).
Proof.
  unfold recTypeTool, createTypeTool, rethrow. cbv zeta. cbv [mbind PM_bind mret PM_ret].
  rewrite recTypeChars.
  destruct (endsWithNewline text); cbn [fst]; rewrite <- !app_assoc; cbn [app]; rewrite ?app_nil_r; reflexivity.
Qed.

End TypeToolFacts.

(* ------------------------------------------------------------------ *)
(** ** The agent's state monad *)

Module MonadFacts.
Import Agent RunSpec.

Section Laws.
Variable World : Type.
Local Notation M := (M World).

Lemma bind_inv {A B} (m : M A) (k : A -> M B) s s' r :
  (m ≫= k) s = (s', r) ->
  (exists s1 a, m s = (s1, Ok a) /\ k a s1 = (s', r)) \/
  (exists e, m s = (s', Throw e) /\ r = Throw e).
Proof.
  unfold mbind, M_bind. destruct (m s) as [s1 [a|e]]; intros H; [left|right]; eauto.
  injection H as -> <-. eauto.
Qed.

Lemma getSt_inv s s' r : getSt World s = (s', r) -> s' = s /\ r = Ok s.2.
Proof. unfold getSt. intros H. injection H as -> <-. auto. Qed.

Lemma modifySt_inv f s s' r : modifySt World f s = (s', r) -> s' = (s.1, f s.2) /\ r = Ok tt.
Proof. unfold modifySt. intros H. injection H as <- <-. auto. Qed.

Lemma liftW_inv {A} (f : World -> World * Exc A) s s' r :
  liftW World f s = (s', r) -> s'.2 = s.2 /\ f s.1 = (s'.1, r).
Proof. unfold liftW. destruct (f s.1) as [w' r']. intros H. injection H as <- <-. auto. Qed.

Lemma ret_inv {A} (a : A) s s' r : (mret a : M A) s = (s', r) -> s' = s /\ r = Ok a.
Proof. unfold mret, M_ret. intros H. injection H as -> <-. auto. Qed.

Section Stability.
Variable R : AgentState -> AgentState -> Prop.
Context `{!PreOrder R}.

Lemma Stable_ret {A} (a : A) : Stable R (mret a : M A).
Proof. intros s. reflexivity. Qed.

Lemma Stable_bind {A B} (m : M A) (k : A -> M B) :
  Stable R m -> (forall a, Stable R (k a)) -> Stable R (m ≫= k).
Proof.
  intros Hm Hk s. specialize (Hm s). unfold mbind, M_bind.
  destruct (m s) as [s1 [a|e]] eqn:E; simpl in *; [|exact Hm].
  transitivity s1.2; [exact Hm|apply Hk].
Qed.

Lemma Stable_getSt : Stable R (getSt World).
Proof. intros s. reflexivity. Qed.

Lemma Stable_liftW {A} (f : World -> World * Exc A) : Stable R (liftW World f).
Proof. intros s. unfold liftW. destruct (f s.1). reflexivity. Qed.

Lemma Stable_modify (f : AgentState -> AgentState) :
  (forall st, R st (f st)) -> Stable R (modifySt World f).
Proof. intros H s. apply H. Qed.

End Stability.
End Laws.

(** Decompose a [Stable] goal along the code. *)
Ltac stable :=
  repeat first
    [ lazymatch goal with |- PreOrder _ => assumption end
    | apply Stable_bind; [..|intro]
    | apply Stable_ret
    | apply Stable_getSt
    | apply Stable_liftW
    | apply Stable_modify; intro
    | progress cbv zeta
    | case_match ].

End MonadFacts.

(* ------------------------------------------------------------------ *)
(** ** Relations preserved by every computation of the agent *)

Module AgentFacts.
Import Agent RunSpec MonadFacts.

Section Run.
Variable World : Type.
Variable captureState : World -> World * Exc BrowserState.
Variable generate : Request -> World -> World * Exc GenerateResult.
Variable toolImpl : string -> Params -> World -> World * Exc string.
Variable waitForLoadState : World -> World * Exc unit.
Variable waitForTimeout : Z -> World -> World * Exc unit.
Variable goto : string -> World -> World * Exc unit.

Local Notation execTools := (executeToolCalls World toolImpl).
Local Notation genCall := (generateCall World generate toolImpl).
Local Notation planPhase := (executePlanningPhase World generate toolImpl).
Local Notation decideM := (decide World generate toolImpl).
Local Notation handle := (handleToolCalls World waitForTimeout).
Local Notation body := (stepBody World captureState generate toolImpl waitForLoadState waitForTimeout).
Local Notation loopM := (loop World captureState generate toolImpl waitForLoadState waitForTimeout).
Local Notation runM := (run World captureState generate toolImpl waitForLoadState waitForTimeout goto).

Section Generic.
Variable R : AgentState -> AgentState -> Prop.
Context `{!PreOrder R}.
Hypothesis R_results : forall st m, R st (setLastToolResults st m).
Hypothesis R_plan : forall st n f ns, R st (setMemory st (Memory.addPlanningStep (memory st) n f ns)).
Hypothesis R_action : forall st a r, result a = Some r -> ToolResult.success r = true ->
  R st (setMemory st (Memory.addActionStep (memory st) a)).
Hypothesis R_analysis : forall st n t o,
  R st (setMemory st (Memory.addVisionAnalysisStep (memory st) n t o)).
Hypothesis R_vision : forall st u, R st (addVisionTokens st u).
Hypothesis R_logic : forall st u, R st (addLogicTokens st u).
Hypothesis R_trace : forall st e, R st (addTrace st e).
Hypothesis R_count : forall st n, R st (setStepCount st n).
Hypothesis R_hash : forall st h, R st (setLastStateHash st h).
Hypothesis R_task : forall st t, R st (setMemory st (Memory.addTaskStep (memory st) t)).

Ltac close_R :=
  try solve [ auto | eapply R_action; reflexivity
            | unfold addPlanningUsage; case_match; auto ].

Lemma executeToolCalls_stable tcs : Stable R (execTools tcs).
Proof.
  induction tcs as [|tc tcs IH]; simpl; unfold wrapToolWithResultCapture; stable; close_R.
Qed.

Lemma generateCall_stable req : Stable R (genCall req).
Proof. unfold generateCall. stable; close_R; apply executeToolCalls_stable. Qed.

Lemma executePlanningPhase_stable obs n task : Stable R (planPhase obs n task).
Proof. unfold executePlanningPhase. stable; close_R; apply executeToolCalls_stable. Qed.

Lemma handleToolCalls_stable obs r tcs : Stable R (handle obs r tcs).
Proof. induction tcs as [|tc tcs IH]; simpl; stable; close_R. Qed.

Lemma decide_stable cfg obs task changed : Stable R (decideM cfg obs task changed).
Proof. unfold decide. stable; close_R; apply executeToolCalls_stable. Qed.

Lemma stepBody_stable cfg task : Stable R (body cfg task).
Proof.
  unfold stepBody. stable; close_R;
    first [ apply executeToolCalls_stable | apply handleToolCalls_stable | apply decide_stable ].
Qed.

Lemma loop_stable cfg task fuel fa : Stable R (loopM cfg task fuel fa).
Proof.
  revert fa. induction fuel as [|fuel IH]; intros fa; simpl; stable; close_R;
    first [ apply IH | apply handleToolCalls_stable | apply decide_stable
          | apply executeToolCalls_stable ].
Qed.

Lemma run_stable cfg task url : Stable R (runM cfg task url).
Proof. unfold run. stable; close_R. apply loop_stable. Qed.

End Generic.

(** *** Token accounting *)

Lemma usage_ext (u v : Usage) :
  inputTokens u = inputTokens v -> outputTokens u = outputTokens v ->
  totalTokens u = totalTokens v -> u = v.
Proof. destruct u, v; simpl; intros -> -> ->; reflexivity. Qed.

Ltac usage_solve :=
  repeat match goal with u : Usage |- _ => destruct u end; simpl in *;
  apply usage_ext; simpl; lia.

Lemma usageStep_same (st st' : AgentState) :
  logicUsage st' = logicUsage st -> visionUsage st' = visionUsage st ->
  totalUsage st' = totalUsage st -> usageStep st st'.
Proof.
  unfold usageStep. intros -> -> ->. exists zeroUsage, zeroUsage. unfold zeroUsage.
  repeat split; usage_solve.
Qed.

#[local] Instance usageStep_preorder : PreOrder usageStep.
Proof.
  split.
  - intros st. apply usageStep_same; reflexivity.
  - intros s1 s2 s3 (dl1 & dv1 & L1 & V1 & T1) (dl2 & dv2 & L2 & V2 & T2).
    exists (addUsage dl1 dl2), (addUsage dv1 dv2).
    rewrite L2, L1, V2, V1, T2, T1. repeat split; usage_solve.
Qed.

Lemma usageStep_vision st u : usageStep st (addVisionTokens st u).
Proof. exists zeroUsage, u. simpl. repeat split; usage_solve. Qed.

Lemma usageStep_logic st u : usageStep st (addLogicTokens st u).
Proof. exists u, zeroUsage. simpl. repeat split; usage_solve. Qed.

Lemma stepBody_usage cfg task : Stable usageStep (body cfg task).
Proof.
  apply stepBody_stable; intros; first [apply usageStep_preorder | apply usageStep_vision | apply usageStep_logic
                                      | apply usageStep_same; reflexivity].
Qed.

Lemma run_usage cfg task url : Stable usageStep (runM cfg task url).
Proof.
  apply run_stable; intros; first [apply usageStep_preorder | apply usageStep_vision | apply usageStep_logic
                                 | apply usageStep_same; reflexivity].
Qed.

(** C10: the combined counter is the componentwise sum of the logic and
    vision counters at construction, and stays so: every step, and every
    run (whatever its outcome), adds some logic amount [dl] and some vision
    amount [dv] to the logic and vision counters and [dl + dv] to the
    total; each fold adds its amount to exactly one of logic and vision and
    to the total; so no counter ever decreases. *)
Theorem usage_total_is_logic_plus_vision :
  usageSplit newAgentState /\
  (forall cfg task s, usageStep s.2 (body cfg task s).1.2) /\
  (forall cfg task url s, usageStep s.2 (runM cfg task url s).1.2) /\
  (forall st st', usageStep st st' ->
     (usageSplit st -> usageSplit st') /\
     usageLe (totalUsage st) (totalUsage st') /\
     usageLe (logicUsage st) (logicUsage st') /\
     usageLe (visionUsage st) (visionUsage st')) /\
  (forall st u,
     totalUsage (addVisionTokens st u) = addUsage (totalUsage st) u /\
     visionUsage (addVisionTokens st u) = addUsage (visionUsage st) u /\
     logicUsage (addVisionTokens st u) = logicUsage st) /\
  (forall st u,
     totalUsage (addLogicTokens st u) = addUsage (totalUsage st) u /\
     logicUsage (addLogicTokens st u) = addUsage (logicUsage st) u /\
     visionUsage (addLogicTokens st u) = visionUsage st) /\
  (forall cfg st u,
     addPlanningUsage cfg st u = addVisionTokens st u \/
     addPlanningUsage cfg st u = addLogicTokens st u).
Proof.
  split; [reflexivity|]. split; [intros; apply stepBody_usage|].
  split; [intros; apply run_usage|]. split.
  - intros st st' (dl & dv & L & V & T). unfold usageSplit, usageLe.
    rewrite L, V, T. repeat split; try (intros ->); try usage_solve;
      repeat match goal with u : Usage |- _ => destruct u end; simpl; lia.
  - repeat split. intros cfg st u. unfold addPlanningUsage.
    destruct (variant cfg); auto.
Qed.

(** *** The history log *)

Lemma memoryGrows_push (st : AgentState) (s : MemoryStep) :
  actionOk s -> memoryGrowsOk st (setMemory st (Memory.push (memory st) s)).
Proof. intros H. exists [s]. simpl. repeat split; auto. Qed.

Lemma memoryGrows_same (st st' : AgentState) :
  memory st' = memory st -> memoryGrowsOk st st'.
Proof. intros E. exists []. rewrite E, app_nil_r. auto. Qed.

#[local] Instance memoryGrows_preorder : PreOrder memoryGrowsOk.
Proof.
  split.
  - intros st. apply memoryGrows_same. reflexivity.
  - intros s1 s2 s3 (n1 & E1 & F1 & P1) (n2 & E2 & F2 & P2).
    exists (n1 ++ n2). rewrite E2, E1, app_assoc, P2, P1.
    repeat split; auto. apply Forall_app; auto.
Qed.

Lemma run_memory cfg task url : Stable memoryGrowsOk (runM cfg task url).
Proof.
  apply run_stable; intros;
    first [ apply memoryGrows_preorder
          | apply memoryGrows_push; simpl; eauto
          | apply memoryGrows_same; reflexivity ].
Qed.

Lemma replayed_action (a : ActionStep) :
  actionOk (ActionS a) ->
  exists r, result a = Some r /\
    Memory.stepMessages (ActionS a) =
    [mkMsg "assistant" (CParts [ToolCallPart (Memory.toolCallId a) (toolName a) (parameters a)]);
     mkMsg "tool" (CParts [ToolResultPart (Memory.toolCallId a) (toolName a) (Memory.resultValue r)])].
Proof.
  intros (r & E & S). exists r. split; [exact E|]. simpl. rewrite E, S. reflexivity.
Qed.

(** C7: a run (whatever its outcome, an error included) only appends to
    the history, and every Action entry it appends has a result with
    success true, so each is replayed by [toMessages] as its tool-call and
    tool-result messages; a history with no failed Action entry (the one
    of a new agent included) keeps having none. *)
Theorem run_records_only_successful_actions cfg task url s s' r
    (H : runM cfg task url s = (s', r)) :
  Forall actionOk (Memory.steps (memory newAgentState)) /\
  exists new,
    Memory.steps (memory s'.2) = Memory.steps (memory s.2) ++ new /\
    Forall actionOk new /\
    (Forall actionOk (Memory.steps (memory s.2)) ->
     Forall actionOk (Memory.steps (memory s'.2))) /\
    Memory.toMessages (memory s'.2) =
      Memory.toMessages (memory s.2) ++ flat_map Memory.stepMessages new /\
    (forall a, In (ActionS a) new ->
       exists res, result a = Some res /\
         Memory.stepMessages (ActionS a) =
         [mkMsg "assistant" (CParts [ToolCallPart (Memory.toolCallId a) (toolName a) (parameters a)]);
          mkMsg "tool" (CParts [ToolResultPart (Memory.toolCallId a) (toolName a)
                                  (Memory.resultValue res)])]).
Proof.
  split; [constructor|].
  pose proof (run_memory cfg task url s) as Hm. rewrite H in Hm. simpl in Hm.
  destruct Hm as (new & E & F & _).
  exists new. split; [exact E|]. split; [exact F|]. split.
  - intros F0. rewrite E. apply Forall_app; auto.
  - split.
    + unfold Memory.toMessages. rewrite E, flat_map_app. reflexivity.
    + intros a Ha. apply replayed_action. rewrite Forall_forall in F. apply F, list_elem_of_In, Ha.
Qed.

(** *** Result capture *)

(** C3: the wrapper returns what the original [execute] returns, from the
    same world, and its only effect on the agent is to store a successful
    value under the tool's name; two successful calls of one tool leave the
    second value, which is what the step then reads (when non-empty), and a
    name with no captured value reads as "<name> executed". *)
Theorem wrapToolWithResultCapture_pass_through (name : string)
    (originalExecute : Params -> World -> World * Exc string) :
  (forall args w st,
     wrapToolWithResultCapture World name originalExecute args (w, st) =
     let '(w', r) := originalExecute args w in
     ((w', match r with
           | Ok v => setLastToolResults st (<[name := v]> (lastToolResults st))
           | Throw _ => st
           end), r)) /\
  (forall args1 args2 w0 w1 w2 st r1 r2,
     originalExecute args1 w0 = (w1, Ok r1) -> originalExecute args2 w1 = (w2, Ok r2) ->
     let res := (wrapToolWithResultCapture World name originalExecute args1;;
                 wrapToolWithResultCapture World name originalExecute args2) (w0, st) in
     res.2 = Ok r2 /\ res.1.1 = w2 /\ lastToolResults res.1.2 !! name = Some r2 /\
     (r2 <> "" -> readCaptured res.1.2 name = r2)) /\
  (forall st nm, lastToolResults st !! nm = None -> readCaptured st nm = nm +:+ " executed").
Proof.
  split; [|split].
  - intros args w st. unfold wrapToolWithResultCapture, mbind, M_bind, liftW, modifySt, mret, M_ret.
    simpl. destruct (originalExecute args w) as [w' [v|e]]; reflexivity.
  - intros args1 args2 w0 w1 w2 st r1 r2 E1 E2.
    unfold wrapToolWithResultCapture, mbind, M_bind, liftW, modifySt, mret, M_ret. simpl.
    rewrite E1. simpl. rewrite E2. simpl. split; [reflexivity|]. split; [reflexivity|].
    rewrite lookup_insert_eq. split; [reflexivity|].
    intros Hne. unfold readCaptured. simpl. rewrite lookup_insert_eq.
    destruct (String.eqb_spec r2 ""); [contradiction|reflexivity].
  - intros st nm Hn. unfold readCaptured. rewrite Hn. reflexivity.
Qed.

(** *** Step bookkeeping *)

#[local] Instance frame_preorder : PreOrder frame.
Proof.
  split.
  - intros st. repeat split.
  - intros s1 s2 s3 (C1 & T1 & H1) (C2 & T2 & H2). repeat split; congruence.
Qed.

Ltac frame_solve := lazymatch goal with |- frame _ _ => unfold frame; cbn; repeat split end.

Lemma executeToolCalls_frame tcs : Stable frame (execTools tcs).
Proof.
  induction tcs as [|tc tcs IH]; simpl; unfold wrapToolWithResultCapture;
    stable; try apply frame_preorder; try frame_solve. apply IH.
Qed.

Lemma generateCall_frame req : Stable frame (genCall req).
Proof.
  unfold generateCall. stable; try apply frame_preorder; try frame_solve.
  apply executeToolCalls_frame.
Qed.

Lemma executePlanningPhase_frame obs n task : Stable frame (planPhase obs n task).
Proof.
  unfold executePlanningPhase. stable; try apply frame_preorder; try frame_solve.
Qed.

Lemma addPlanningUsage_frame cfg st u : frame st (addPlanningUsage cfg st u).
Proof. unfold addPlanningUsage. case_match; frame_solve. Qed.

Lemma handleToolCalls_frame obs r tcs : Stable frame (handle obs r tcs).
Proof.
  induction tcs as [|tc tcs IH]; simpl; stable; try apply frame_preorder; try frame_solve.
  apply IH.
Qed.

Lemma handleToolCalls_answer obs r tcs s s' fa :
  handle obs r tcs s = (s', Ok fa) -> fa = option_map doneAnswer (firstDone tcs).
Proof.
  revert s. induction tcs as [|tc tcs IH]; intros s H; simpl in H.
  - apply ret_inv in H as [_ E]. injection E as E. subst. reflexivity.
  - simpl. destruct (String.eqb (tcName tc) "done").
    + apply ret_inv in H as [_ E]. injection E as E. subst. reflexivity.
    + apply bind_inv in H as [(s1 & a & _ & H)|(e & _ & E)]; [|discriminate].
      apply bind_inv in H as [(s2 & b & _ & H)|(e & _ & E)]; [|discriminate].
      apply bind_inv in H as [(s3 & c & _ & H)|(e & _ & E)]; [|discriminate].
      apply bind_inv in H as [(s4 & d & _ & H)|(e & _ & E)]; [|discriminate].
      exact (IH _ H).
Qed.

Lemma stateWarning_count v st st' ch :
  stepCount st' = stepCount st -> stateWarning v st' ch = stateWarning v st ch.
Proof. unfold stateWarning. intros ->. reflexivity. Qed.

Lemma promptText_buildMessages c sp b v st obs analysis task ch :
  promptText (mkRequest c sp (buildMessages v st obs analysis task ch) b) =
  Some (taskReminder task +:+ stateWarning v st ch +:+ observationBody v obs analysis).
Proof. unfold promptText, buildMessages. cbn [reqMessages]. rewrite last_snoc. destruct v; reflexivity. Qed.

Ltac gen_frame E :=
  match type of E with
  | genCall ?req ?s = _ =>
      let F := fresh "F" in pose proof (generateCall_frame req s) as F;
      rewrite E in F; simpl in F; destruct F as (? & ? & ?)
  end.

(** A decision leaves the step counter and the last fingerprint alone; a
    decision that returns has appended its trace entry, whose prompt ends
    with the warning as [stateWarning] decides it. *)
Lemma decide_spec cfg obs task ch s s' r :
  decideM cfg obs task ch s = (s', r) ->
  stepCount s'.2 = stepCount s.2 /\ lastStateHash s'.2 = lastStateHash s.2 /\
  match r with
  | Ok gr => exists req analysis,
      trace s'.2 = trace s.2 ++ [mkStepTrace (stepCount s.2) obs req gr] /\
      promptText req = Some (taskReminder task +:+ stateWarning (variant cfg) s.2 ch +:+
                             observationBody (variant cfg) obs analysis)
  | Throw _ => trace s'.2 = trace s.2
  end.
Proof.
  unfold decide. destruct (variant cfg) eqn:V; intros H;
  cbv [mbind M_bind getSt modifySt mret M_ret] in H.
  - destruct (hasVisionClient cfg);
    (destruct (genCall _ s) as [s2 [gr|e]] eqn:E in H; gen_frame E;
      injection H as <- <-; [|repeat split; assumption]);
    (repeat split; [assumption|assumption|]);
    (eexists _, ""; split; [cbn; rewrite H0, H1; reflexivity | apply promptText_buildMessages]).
  - destruct (genCall _ s) as [s2 [vr|e]] eqn:E in H; gen_frame E;
      [|injection H as <- <-; repeat split; assumption].
    destruct (genCall _ _) as [s3 [gr|e]] eqn:E3 in H; gen_frame E3;
      injection H as <- <-;
      cbn [fst snd addTrace addLogicTokens stepCount trace lastStateHash setMemory addVisionTokens] in *;
      [|repeat split; congruence].
    repeat split; try congruence.
    match type of E3 with genCall ?req _ = _ => exists req, (genText vr) end. split.
    + rewrite H3, H0, H4, H1. reflexivity.
    + rewrite promptText_buildMessages. do 3 f_equal. apply stateWarning_count. cbn. congruence.
Qed.

Lemma hasStateChanged_eq obs s :
  hasStateChanged World obs s =
  ((s.1, setLastStateHash s.2 (Some (Fingerprint.computeStateHash obs))),
   Ok (match lastStateHash s.2 with
       | Some h => negb (String.eqb (Fingerprint.computeStateHash obs) h)
       | None => true
       end)).
Proof. reflexivity. Qed.

Ltac no_trace H := injection H as <- <-; exists []; rewrite app_nil_r; repeat split; simpl; lia.

(** One iteration appends at most one trace entry, continuing the prompt
    chain; an iteration that returns appended exactly one, advanced the
    counter, stored the entry's fingerprint, and set its answer. *)
Lemma stepBody_spec cfg task s s' r :
  body cfg task s = (s', r) ->
  exists es, trace s'.2 = trace s.2 ++ es /\ (length es <= 1)%nat /\
    chain (variant cfg) task (stepCount s.2) (lastStateHash s.2) es /\
    match r with
    | Ok fa => exists e, es = [e] /\ stepCount s'.2 = (stepCount s.2 + 1)%Z /\
        lastStateHash s'.2 = Some (Fingerprint.computeStateHash (trObs e)) /\
        fa = stepOutcome (trResult e)
    | Throw _ => True
    end.
Proof.
  unfold stepBody. intros H.
  cbv [mbind M_bind getSt modifySt mret M_ret liftW] in H.
  destruct s as [w0 st0]. cbn [fst snd] in H.
  destruct (waitForLoadState w0) as [w1 [[]|e]]; cbn [fst snd] in H; [|no_trace H].
  destruct (waitForTimeout 500 w1) as [w2 [[]|e]]; cbn [fst snd] in H; [|no_trace H].
  destruct (captureState w2) as [w3 [obs|e]]; cbn [fst snd] in H; [|no_trace H].
  rewrite hasStateChanged_eq in H. cbn [fst snd] in H.
  set (P := if planningDue _ _ then _ else _) in H.
  assert (FP : forall s, frame s.2 (P s).1.2).
  { intros s. unfold P. destruct (planningDue _ _); [|reflexivity].
    match goal with |- context [planPhase ?o ?n ?t s] =>
      pose proof (executePlanningPhase_frame o n t s) as F; destruct (planPhase o n t s) as [s5 [u|e]] end;
    simpl in *; [etransitivity; [exact F | apply addPlanningUsage_frame] | exact F]. }
  set (s3 := (w3, _)) in H.
  specialize (FP s3). destruct (P s3) as [s4 [[]|e]] eqn:EP;
    cbn [fst snd] in H, FP; destruct FP as (C4 & T4 & L4);
    [|injection H as <- <-; exists []; rewrite app_nil_r, T4; repeat split; simpl; lia].
  clear EP P.
  set (ch := match lastStateHash _ with Some h => _ | None => true end) in H.
  destruct (decideM cfg obs task ch s4) as [s5 [gr|e]] eqn:ED;
    apply decide_spec in ED as (C5 & L5 & D5).
  2:{ injection H as <- <-; exists []; rewrite app_nil_r, D5, T4; repeat split; simpl; lia. }
  destruct D5 as (req & analysis & T5 & P5).
  exists [mkStepTrace (stepCount s4.2) obs req gr].
  assert (CH : chain (variant cfg) task (stepCount st0) (lastStateHash st0)
                 [mkStepTrace (stepCount s4.2) obs req gr]).
  { simpl. split; [rewrite C4; reflexivity|]. split; [|exact I].
    exists analysis. unfold prompted. cbn [trRequest trObs trStep].
    rewrite P5. unfold stateWarning. rewrite C4. reflexivity. }
  assert (TR : trace s5.2 = trace st0 ++ [mkStepTrace (stepCount s4.2) obs req gr]).
  { rewrite T5, T4. reflexivity. }
  destruct (_ && _) eqn:SC in H.
  - injection H as <- <-. split; [exact TR|]. split; [simpl; lia|]. split; [exact CH|].
    eexists; split; [reflexivity|]. repeat split.
    + rewrite C5, C4. reflexivity.
    + rewrite L5, L4. reflexivity.
    + cbn [trResult]. unfold stepOutcome, stopAnswer. rewrite SC. reflexivity.
  - pose proof (handleToolCalls_frame obs gr (genToolCalls gr) s5) as (C6 & T6 & L6).
    destruct (handle obs gr (genToolCalls gr) s5) as [s6 r6] eqn:EH. injection H as <- <-.
    cbn [fst snd] in *. split; [rewrite T6; exact TR|]. split; [simpl; lia|]. split; [exact CH|].
    destruct r6 as [fa|e]; [|exact I].
    apply handleToolCalls_answer in EH. eexists; split; [reflexivity|]. repeat split.
    + rewrite C6, C5, C4. reflexivity.
    + rewrite L6, L5, L4. reflexivity.
    + cbn [trResult]. unfold stepOutcome, stopAnswer. rewrite SC. exact EH.
Qed.

Lemma stepOutcome_nonempty r x : stepOutcome r = Some x -> x <> "".
Proof.
  unfold stepOutcome, stopAnswer.
  destruct (String.eqb (finishReason r) "stop" && negb (String.eqb (genText r) "")) eqn:SC.
  - intros E. injection E as <-. apply andb_prop in SC as [_ SC].
    destruct (String.eqb_spec (genText r) ""); [discriminate|assumption].
  - destruct (firstDone (genToolCalls r)) as [args|]; [|discriminate]. intros E. injection E as <-.
    unfold doneAnswer. destruct (lookupKey "result" args) as [[]|]; try discriminate.
    destruct (String.eqb_spec s ""); [discriminate|assumption].
Qed.

Lemma loop_answered cfg task fuel x s :
  x <> "" -> loopM cfg task fuel (Some x) s = (s, Ok (Some x)).
Proof.
  intros Hx. destruct fuel; [reflexivity|]. cbn.
  destruct (String.eqb_spec x ""); [contradiction|reflexivity].
Qed.

Lemma loop_S cfg task fuel fa :
  loopM cfg task (S fuel) fa =
  (st ← getSt World;
   if noAnswer fa && Z.ltb (stepCount st) (maxSteps cfg) then
     fa' ← body cfg task; loopM cfg task fuel fa'
   else mret fa).
Proof. reflexivity. Qed.

(** The loop from no answer: its trace entries continue the prompt chain;
    when it returns, each entry took one step, and either no entry set an
    answer and the fuel or the step budget was used up, or the last entry
    set the answer returned and no earlier one did. *)
Lemma loop_spec cfg task fuel s s' r :
  loopM cfg task fuel None s = (s', r) ->
  exists es, trace s'.2 = trace s.2 ++ es /\
    chain (variant cfg) task (stepCount s.2) (lastStateHash s.2) es /\
    match r with
    | Ok fa =>
        stepCount s'.2 = (stepCount s.2 + Z.of_nat (length es))%Z /\ (length es <= fuel)%nat /\
        ((fa = None /\ Forall nonterminal (map trResult es) /\
          (length es = fuel \/ (maxSteps cfg <= stepCount s'.2)%Z)) \/
         (exists pre e x, es = pre ++ [e] /\ Forall nonterminal (map trResult pre) /\
            stepOutcome (trResult e) = Some x /\ fa = Some x))
    | Throw _ => True
    end.
Proof.
  revert s. induction fuel as [|fuel IH]; intros s H.
  - injection H as <- <-. exists []. rewrite app_nil_r. simpl. repeat split; try lia.
    left. repeat split; auto.
  - rewrite loop_S in H. cbv [mbind M_bind getSt mret M_ret noAnswer andb] in H.
    destruct (Z.ltb_spec (stepCount s.2) (maxSteps cfg)) as [Hlt|Hge].
    2:{ injection H as <- <-. exists []. rewrite app_nil_r. simpl. repeat split; try lia.
        left. repeat split; auto. }
    destruct (body cfg task s) as [s1 [fa|e]] eqn:EB; apply stepBody_spec in EB as (es1 & T1 & L1 & C1 & R1).
    2:{ injection H as <- <-. exists es1. auto. }
    destruct R1 as (e & -> & N1 & H1 & O1).
    destruct fa as [x|].
    + rewrite loop_answered in H by (apply (stepOutcome_nonempty (trResult e)); congruence).
      injection H as <- <-. exists [e]. split; [exact T1|]. split; [exact C1|].
      split; [rewrite N1; simpl; lia|]. split; [simpl; lia|].
      right. exists [], e, x. repeat split; auto.
    + destruct (IH s1 H) as (es2 & T2 & C2 & R2).
      exists (e :: es2). split; [rewrite T2, T1, <- app_assoc; reflexivity|]. split.
      * simpl in C1 |- *. destruct C1 as (S1 & P1 & _). split; [exact S1|]. split; [exact P1|].
        rewrite N1, H1 in C2. exact C2.
      * destruct r as [fa|e']; [|exact I].
        destruct R2 as (N2 & L2 & [(-> & F2 & B2)|(pre & e2 & x & -> & F2 & O2 & ->)]).
        -- simpl. repeat split; try lia. left. split; [reflexivity|]. split.
           ++ constructor; [unfold nonterminal; congruence|exact F2].
           ++ destruct B2; [left; lia|right; assumption].
        -- simpl. repeat split; try lia.
           right. exists (e :: pre), e2, x. repeat split; auto.
              constructor; [unfold nonterminal; congruence|exact F2].
Qed.

Lemma loop_fuel_enough cfg task fuel s s' :
  (Z.to_nat (maxSteps cfg - stepCount s.2) <= fuel)%nat ->
  loopM cfg task fuel None s = (s', Ok None) -> (maxSteps cfg <= stepCount s'.2)%Z.
Proof.
  intros Hf H. apply loop_spec in H as (es & _ & _ & N & L & [(_ & _ & [B|B])|(p & q & x & _ & _ & _ & E)]);
    [lia|exact B|discriminate].
Qed.

(** A run: its trace entries form a prompt chain from step 1; a run that
    returns either used the step budget with no entry setting an answer,
    or returns the answer of its last entry, no earlier entry having one. *)
Lemma run_spec cfg task url s s' r :
  runM cfg task url s = (s', r) ->
  exists es, trace s'.2 = trace s.2 ++ es /\ chain (variant cfg) task 0 (lastStateHash s.2) es /\
  match r with
  | Ok ans => (length es <= Z.to_nat (maxSteps cfg))%nat /\
      ((Forall nonterminal (map trResult es) /\
        (length es = Z.to_nat (maxSteps cfg) \/ (maxSteps cfg <= Z.of_nat (length es))%Z) /\
        ans = "Task incomplete after " +:+ showZ (maxSteps cfg) +:+ " steps") \/
       (exists pre e, es = pre ++ [e] /\ Forall nonterminal (map trResult pre) /\
          stepOutcome (trResult e) = Some ans))
  | Throw _ => True
  end.
Proof.
  unfold run. intros H. cbv [mbind M_bind getSt modifySt mret M_ret liftW] in H.
  set (P := match url with Some u => _ | None => _ end) in H.
  assert (FP : forall s0, (P s0).1.2 = s0.2).
  { clear H. intros s0. unfold P. destruct url as [u|]; [destruct (String.eqb u "")|]; try reflexivity.
    destruct (goto u s0.1) as [w [[]|e]]; cbn; [|reflexivity].
    destruct (variant cfg); cbn; [reflexivity|].
    destruct (waitForTimeout _ w) as [w' [[]|e']]; reflexivity. }
  specialize (FP s). destruct (P s) as [s1 [[]|e]] eqn:EP; cbn [fst snd] in H, FP.
  2:{ injection H as <- <-. exists []. rewrite app_nil_r, FP. repeat split. }
  destruct (loopM _ _ _ _ _) as [s2 r2] eqn:EL in H.
  apply loop_spec in EL as (es & T & C & R). cbn [fst snd stepCount lastStateHash trace setStepCount setMemory] in T, C, R.
  rewrite FP in T, C.
  destruct r2 as [fa|e];
    [|injection H as <- <-; exists es; split; [exact T|]; split; [exact C|exact I]].
  destruct R as (N & L & [(-> & F & B)|(pre & e & x & -> & F & O & ->)]).
  - injection H as <- <-. exists es. split; [exact T|]. split; [exact C|]. split; [exact L|]. left. split; [exact F|]. split; [|reflexivity].
    destruct B; [left; assumption|right; lia].
  - pose proof (stepOutcome_nonempty _ _ O) as Hx.
    destruct (String.eqb_spec x ""); [contradiction|]. injection H as <- <-.
    eexists. split; [exact T|]. split; [exact C|]. split; [exact L|]. right. exists pre, e. auto.
Qed.


Lemma chain_lookup v task n prev es :
  chain v task n prev es -> forall i e, es !! i = Some e ->
  trStep e = (n + Z.of_nat i + 1)%Z /\
  prompted v task (match i with
                   | O => prev
                   | S j => option_map (fun e' => Fingerprint.computeStateHash (trObs e')) (es !! j)
                   end) e.
Proof.
  revert n prev. induction es as [|e0 es IH]; intros n prev C i e L; [discriminate|].
  destruct C as (S0 & P0 & C). destruct i as [|i]; simpl in L.
  - injection L as <-. split; [lia|exact P0].
  - destruct (IH _ _ C i e L) as (Si & Pi). split; [lia|].
    destruct i as [|j]; exact Pi.
Qed.

Lemma exits_exclusive cfg ds ans :
  ~ (exitStop ds ans /\ exitDone ds ans) /\
  ~ (exitStop ds ans /\ exitBudget cfg ds ans) /\
  ~ (exitDone ds ans /\ exitBudget cfg ds ans).
Proof.
  unfold exitStop, exitDone, exitBudget, nonterminal, stepOutcome. repeat split.
  - intros [(pre & r & E & _ & S) (pre' & r' & args & E' & _ & S' & _)].
    rewrite E' in E. apply app_inj_tail in E as [_ <-]. congruence.
  - intros [(pre & r & E & _ & S) (F & _)]. rewrite E, Forall_app in F.
    destruct F as [_ F]. inversion F as [|? ? Fr]. rewrite S in Fr. discriminate.
  - intros [(pre & r & args & E & _ & S & D & _) (F & _)]. rewrite E, Forall_app in F.
    destruct F as [_ F]. inversion F as [|? ? Fr]. rewrite S, D in Fr. discriminate.
Qed.

Lemma outcome_exit ds pre e ans :
  ds = map trResult (pre ++ [e]) -> Forall nonterminal (map trResult pre) ->
  stepOutcome (trResult e) = Some ans -> exitStop ds ans \/ exitDone ds ans.
Proof.
  intros -> F O. rewrite map_app. unfold stepOutcome in O.
  destruct (stopAnswer (trResult e)) as [t|] eqn:S.
  - left. exists (map trResult pre), (trResult e). injection O as <-. auto.
  - right. destruct (firstDone (genToolCalls (trResult e))) as [args|] eqn:D; [|discriminate].
    injection O as <-. exists (map trResult pre), (trResult e), args. auto.
Qed.

(** C1 (as the code behaves): a run that returns an answer has made some
    decisions, recorded in order in its trace, and left through exactly
    one of three exits: (1) the last decision has finish reason "stop" and
    non-empty text, whatever tool calls come with it, and the answer is
    that text; (2) otherwise the last decision has a "done" call, and the
    answer is the result argument of its first "done" call, or "Task
    completed" when that is empty; in (1) and (2) no earlier decision set
    an answer; (3) no decision set an answer, exactly [maxSteps] decisions
    were made (none when [maxSteps <= 0]), and the answer is "Task
    incomplete after <maxSteps> steps". Any other run throws. *)
Theorem run_exits cfg task url s s' ans (H : runM cfg task url s = (s', Ok ans)) :
  exists es, trace s'.2 = trace s.2 ++ es /\
    (exitStop (map trResult es) ans \/ exitDone (map trResult es) ans \/
     exitBudget cfg (map trResult es) ans) /\
    (forall ds a, ~ (exitStop ds a /\ exitDone ds a) /\ ~ (exitStop ds a /\ exitBudget cfg ds a) /\
                  ~ (exitDone ds a /\ exitBudget cfg ds a)).
Proof.
  apply run_spec in H as (es & T & _ & L & [(F & B & ->)|(pre & e & -> & F & O)]).
  - exists es. split; [exact T|]. split; [|intros; apply exits_exclusive].
    right. right. split; [exact F|]. split; [|reflexivity]. rewrite length_map. destruct B; lia.
  - exists (pre ++ [e]). split; [exact T|]. split; [|intros; apply exits_exclusive].
    destruct (outcome_exit _ pre e ans eq_refl F O); auto.
Qed.

(** C8: along a run, whatever its outcome, the decision prompt of the
    [i]-th step recorded (step [i+1]) carries the unchanged-page warning
    exactly when [warnCond] holds: never at step 1, and at a later step
    exactly when the snapshot's fingerprint equals the one of the step
    before; the first [hasStateChanged] of a new agent reports a change. *)
Theorem run_state_warning cfg task url s s' r (H : runM cfg task url s = (s', r)) :
  (forall w obs, hasStateChanged World obs (w, newAgentState) =
                 ((w, setLastStateHash newAgentState (Some (Fingerprint.computeStateHash obs))), Ok true)) /\
  exists es, trace s'.2 = trace s.2 ++ es /\
    forall i e, es !! i = Some e ->
      trStep e = (Z.of_nat i + 1)%Z /\
      exists analysis, promptText (trRequest e) =
        Some (taskReminder task +:+
              (if warnCond es i e then stateWarningText (variant cfg) else "") +:+
              observationBody (variant cfg) (trObs e) analysis).
Proof.
  split; [reflexivity|].
  apply run_spec in H as (es & T & C & _). exists es. split; [exact T|].
  intros i e L. destruct (chain_lookup _ _ _ _ _ C i e L) as (S & analysis & P).
  split; [lia|]. exists analysis. rewrite P.
  lazymatch goal with
  | |- Some (_ +:+ (if ?c then _ else _) +:+ _) = _ => replace c with (warnCond es i e); [reflexivity|]
  end.
  destruct i as [|j].
  - replace ((1 <? trStep e)%Z) with false by (rewrite S; reflexivity).
    rewrite andb_false_r. reflexivity.
  - assert (Lj : (j < length es)%nat) by (apply lookup_lt_Some in L; lia).
    apply lookup_lt_is_Some_2 in Lj as [e' E']. unfold warnCond. rewrite E'. cbn [option_map].
    rewrite negb_involutive. replace (1 <? trStep e)%Z with true by (symmetry; apply Z.ltb_lt; lia).
    rewrite andb_true_r. reflexivity.
Qed.


(** *** The planning phase *)

(** A successful planning phase makes one [generate] call without tools,
    returns that call's usage, and appends to memory one planning step with
    the FACTS and NEXT STEPS sections of the reply; nothing else in the
    agent state changes. *)
Theorem executePlanningPhase_appends obs n task s s' u
    (H : planPhase obs n task s = (s', Ok u)) :
  exists req gr, reqTools req = false /\ generate req s.1 = (s'.1, Ok gr) /\ u = usage gr /\
    s'.2 = setMemory s.2 (Memory.addPlanningStep (memory s.2) n
             (Planning.extractSection (genText gr) "FACTS")
             (Planning.extractSection (genText gr) "NEXT STEPS")).
Proof.
  unfold executePlanningPhase, generateCall in H.
  cbv [mbind M_bind getSt modifySt mret M_ret liftW] in H.
  destruct s as [w st]. cbn [fst snd reqTools] in H.
  match type of H with context [generate ?req w] =>
    exists req; destruct (generate req w) as [w1 [gr|e]] eqn:E end; [|discriminate].
  injection H as <- <-. exists gr. cbn [fst snd]. auto.
Qed.

(** *** Recording the tool calls of a decision *)

Lemma readCaptured_delete st m nm nm' :
  readCaptured (setLastToolResults (setMemory st m) (delete nm (lastToolResults st))) nm' =
  if String.eqb nm' nm then nm' +:+ " executed" else readCaptured st nm'.
Proof.
  unfold readCaptured. cbn [lastToolResults setLastToolResults setMemory].
  destruct (String.eqb_spec nm' nm) as [->|Hne].
  - rewrite lookup_delete_eq. reflexivity.
  - rewrite lookup_delete_ne by congruence. reflexivity.
Qed.

(** Handling the tool calls of a reply appends one action step for each
    call before the first [done], with the step number, the reply's text,
    the observation and the captured tool result, and clears the captured
    result of each tool name it handled. A name repeated in the batch gets
    the fallback text [<name> executed]. *)
Theorem handleToolCalls_records obs r tcs s s' fa (H : handle obs r tcs s = (s', Ok fa)) :
  exists acts,
    Memory.steps (memory s'.2) = Memory.steps (memory s.2) ++ map ActionS acts /\
    length acts = length (beforeDone tcs) /\
    (forall i tc, beforeDone tcs !! i = Some tc ->
       acts !! i = Some (mkAction (stepCount s.2) (tcName tc) (tcArgs tc) (genText r) (Some obs)
         (Some (ToolResult.mk true None None (Some
            (if bool_decide (tcName tc ∈ map tcName (take i (beforeDone tcs)))
             then tcName tc +:+ " executed" else readCaptured s.2 (tcName tc))))))) /\
    (forall nm, lastToolResults s'.2 !! nm =
       if bool_decide (nm ∈ map tcName (beforeDone tcs)) then None else lastToolResults s.2 !! nm).
Proof.
  revert s H. induction tcs as [|tc tcs IH]; intros s H; simpl in H.
  - injection H as <- <-. exists [].
    split; [simpl; rewrite app_nil_r; reflexivity|]. split; [reflexivity|].
    split; [intros i tc Hi; simpl in Hi; rewrite lookup_nil in Hi; discriminate|].
    intros nm. rewrite bool_decide_false; [reflexivity|]. intros Hin. inversion Hin.
  - cbn [beforeDone]. destruct (String.eqb (tcName tc) "done") eqn:D.
    + injection H as <- <-. exists [].
      split; [simpl; rewrite app_nil_r; reflexivity|]. split; [reflexivity|].
      split; [intros i tc' Hi; rewrite lookup_nil in Hi; discriminate|].
      intros nm. rewrite bool_decide_false; [reflexivity|]. intros Hin. inversion Hin.
    + cbv [mbind M_bind getSt modifySt mret M_ret liftW] in H.
      destruct s as [w st]. cbn [fst snd] in H.
      destruct (waitForTimeout 1500 w) as [w1 [[]|e]]; cbn [fst snd] in H; [|discriminate].
      apply IH in H as (acts & E & L & I & LT).
      cbn [fst snd memory setLastToolResults setMemory Memory.addActionStep Memory.push
           Memory.steps stepCount lastToolResults] in E, I, LT |- *.
      eexists (_ :: acts). split; [rewrite E, <- app_assoc; reflexivity|].
      split; [simpl; rewrite L; reflexivity|]. split.
      * intros [|i] tc' Hi.
        -- injection Hi as <-. simpl.
           try (rewrite bool_decide_false; [|intros Hin; inversion Hin]). reflexivity.
        -- simpl in Hi |- *. rewrite (I i tc' Hi). rewrite readCaptured_delete.
           destruct (String.eqb_spec (tcName tc') (tcName tc)) as [Heq|Hne].
           ++ rewrite (bool_decide_true (_ ∈ tcName tc :: _)) by (rewrite Heq; left).
              destruct (bool_decide _); reflexivity.
           ++ assert (Eb : bool_decide (tcName tc' ∈ tcName tc :: map tcName (take i (beforeDone tcs))) =
                           bool_decide (tcName tc' ∈ map tcName (take i (beforeDone tcs)))).
              { apply bool_decide_ext. rewrite elem_of_cons. split; [intros [?|?]; [contradiction|assumption]|auto]. }
              rewrite Eb. reflexivity.
      * intros nm. rewrite LT. simpl.
        destruct (String.eqb_spec nm (tcName tc)) as [->|Hne].
        -- rewrite lookup_delete_eq. rewrite (bool_decide_true (_ ∈ _ :: _)) by left.
           destruct (bool_decide _); reflexivity.
        -- rewrite lookup_delete_ne by congruence.
           assert (Eb : bool_decide (nm ∈ tcName tc :: map tcName (beforeDone tcs)) =
                        bool_decide (nm ∈ map tcName (beforeDone tcs))).
           { apply bool_decide_ext. rewrite elem_of_cons. split; [intros [?|?]; [contradiction|assumption]|auto]. }
           rewrite Eb. reflexivity.
Qed.

(** *** The step counter *)

Lemma sameCount_preorder : PreOrder (fun st st' : AgentState => stepCount st' = stepCount st).
Proof. split; [intros st; reflexivity|intros a b c E1 E2; congruence]. Qed.

Lemma Stable_frame_count {A} (m : M World A) :
  Stable frame m -> Stable (fun st st' => stepCount st' = stepCount st) m.
Proof. intros F s. apply (F s). Qed.

Lemma bind_modify {A} f (k : unit -> M World A) s : (modifySt World f ≫= k) s = k tt (s.1, f s.2).
Proof. reflexivity. Qed.

Lemma stepBody_count cfg task s : stepCount (body cfg task s).1.2 = (stepCount s.2 + 1)%Z.
Proof.
  pose proof sameCount_preorder as PO.
  unfold stepBody. rewrite bind_modify. cbv beta.
  match goal with |- stepCount (?m ?s1).1.2 = _ =>
    assert (HS : Stable (fun st st' => stepCount st' = stepCount st) m) end.
  { unfold hasStateChanged. stable; try reflexivity;
      first [ apply Stable_frame_count, handleToolCalls_frame
            | apply (addPlanningUsage_frame cfg st)
            | let s0 := fresh "s" in let E := fresh "E" in
              intros s0; cbn beta; destruct (decideM _ _ _ _ s0) eqn:E;
              apply decide_spec in E as [E _]; exact E ]. }
  rewrite HS. reflexivity.
Qed.

Lemma loop_count cfg task fuel fa s :
  (stepCount s.2 <= stepCount (loopM cfg task fuel fa s).1.2 <=
   Z.max (stepCount s.2) (maxSteps cfg))%Z.
Proof.
  revert fa s. induction fuel as [|fuel IH]; intros fa s.
  - simpl. lia.
  - rewrite loop_S. cbv [mbind M_bind getSt mret M_ret].
    destruct (noAnswer fa && Z.ltb (stepCount s.2) (maxSteps cfg)) eqn:C; [|simpl; lia].
    apply andb_prop in C as [_ C]. apply Z.ltb_lt in C.
    pose proof (stepBody_count cfg task s) as N.
    destruct (body cfg task s) as [s1 [fa'|e]]; cbn [fst snd] in *; [|lia].
    specialize (IH fa' s1). lia.
Qed.

(** At the end of [run] the step counter lies between 0 and [maxSteps]
    (it is 0 when [maxSteps] is not positive), unless navigating to the
    start URL threw, which leaves the agent state unchanged. *)
Theorem run_stepCount_bound cfg task url s s' r
    (H : run World captureState generate toolImpl waitForLoadState waitForTimeout goto
           cfg task url s = (s', r)) :
  (0 <= stepCount s'.2 <= Z.max 0 (maxSteps cfg))%Z \/ (exists e, r = Throw e /\ s'.2 = s.2).
Proof.
  unfold run in H.
  set (nav := match url with Some u => _ | None => _ end) in H.
  assert (NS : (nav s).1.2 = s.2).
  { unfold nav. destruct url as [u|]; [|reflexivity]. destruct (String.eqb u ""); [reflexivity|].
    cbv [mbind M_bind liftW mret M_ret]. destruct (goto u s.1) as [w [[]|e]]; cbn [fst snd]; [|reflexivity].
    destruct (variant cfg); [reflexivity|]. cbn [fst snd]. destruct (waitForTimeout (networkWait cfg) w) as [w2 r2]. reflexivity. }
  cbv [mbind M_bind modifySt mret M_ret] in H.
  destruct (nav s) as [s1 [[]|e]]; cbn [fst snd] in NS, H.
  - match type of H with context [loopM cfg task ?f None ?s2] =>
      pose proof (loop_count cfg task f None s2) as LC; destruct (loopM cfg task f None s2) as [s3 r3] end.
    cbn [fst snd stepCount setStepCount] in LC.
    left. destruct r3 as [fa|e]; [destruct fa as [x|]; [destruct (String.eqb x "")|]|];
      injection H as <- <-; lia.
  - right. injection H as <- <-. exists e. auto.
Qed.

End Run.

End AgentFacts.

(* ------------------------------------------------------------------ *)
(** ** The properties at concrete inputs *)

Module Instances.
Import Agent RunSpec Scenarios.

Lemma toMessages_replays_successful_actions_witness :
  match result failedClick with
  | Some r => ToolResult.success r = false
  | None => True
  end /\
  Memory.toMessages (Memory.addActionStep (Memory.addActionStep
      (Memory.addTaskStep (Memory.create None) "T")
      (mkAction 1 "click" [("x", PNum 1); ("y", PNum 2)] "" None
                (Some (ToolResult.mk true None None (Some "Clicked"))))) failedClick) =
    [mkMsg "user" (CText "T");
     mkMsg "assistant" (CParts [ToolCallPart ("click-" +:+ showZ 1) "click"
                                  [("x", PNum 1); ("y", PNum 2)]]);
     mkMsg "tool" (CParts [ToolResultPart ("click-" +:+ showZ 1) "click" (RText "Clicked")])].
Proof.
  split; [reflexivity|].
  apply (MemoryFacts.toMessages_replays_successful_actions None 1 "" None None None failedClick).
  reflexivity.
Defined.

Lemma detectLoop_three_clicks_witness :
  Memory.actionsOf (Memory.steps (Memory.create None)) = [] /\
  Forall (fun a => LoopDetector.actionsAreSimilar a scrollAction = false)
    [loopAction 1 100 100; loopAction 2 103 98; loopAction 3 105 101] /\
  map (fun m => LoopDetector.isLooping (LoopDetector.detectLoop (Memory.getRecentActions m 5)))
    [Memory.addActionStep (Memory.create None) (loopAction 1 100 100);
     Memory.addActionStep (Memory.addActionStep (Memory.create None) (loopAction 1 100 100))
       (loopAction 2 103 98);
     Memory.addActionStep (Memory.addActionStep (Memory.addActionStep (Memory.create None)
       (loopAction 1 100 100)) (loopAction 2 103 98)) (loopAction 3 105 101);
     Memory.addActionStep (Memory.addActionStep (Memory.addActionStep (Memory.addActionStep
       (Memory.create None) (loopAction 1 100 100)) (loopAction 2 103 98))
       (loopAction 3 105 101)) scrollAction] =
  [false; false; true; false].
Proof.
  assert (D4 : Forall (fun a => LoopDetector.actionsAreSimilar a scrollAction = false)
                 [loopAction 1 100 100; loopAction 2 103 98; loopAction 3 105 101])
    by (repeat constructor).
  split; [reflexivity|]. split; [exact D4|].
  exact (proj1 (LoopFacts.detectLoop_three_clicks (Memory.create None)
                  (loopAction 1 100 100) (loopAction 2 103 98) (loopAction 3 105 101) scrollAction
                  eq_refl eq_refl eq_refl eq_refl eq_refl eq_refl eq_refl D4)).
Defined.

Local Notation scRunM := (run World scCapture scGenerate scTool scWaitLoad scWaitTimeout scGoto).
Local Notation budgetStart := ([clickOnly; clickOnly; clickOnly], newAgentState).
Local Notation budgetAnswer := "Task incomplete after 3 steps".

Lemma run_records_only_successful_actions_witness :
  scRunM scConfig "T" None budgetStart = (budgetRun.1, Ok budgetAnswer) /\
  exists new,
    Memory.steps (memory budgetRun.1.2) = Memory.steps (memory newAgentState) ++ new /\
    Forall actionOk new.
Proof.
  assert (H : scRunM scConfig "T" None budgetStart = (budgetRun.1, Ok budgetAnswer))
    by (vm_compute; reflexivity).
  split; [exact H|].
  destruct (AgentFacts.run_records_only_successful_actions World scCapture scGenerate scTool
              scWaitLoad scWaitTimeout scGoto scConfig "T" None budgetStart budgetRun.1 _ H)
    as (_ & new & E & F & _).
  exists new. split; [exact E|exact F].
Defined.

Lemma run_exits_witness :
  scRunM scConfig "T" None budgetStart = (budgetRun.1, Ok budgetAnswer) /\
  exists es, trace budgetRun.1.2 = trace newAgentState ++ es /\
    (exitStop (map trResult es) budgetAnswer \/ exitDone (map trResult es) budgetAnswer \/
     exitBudget scConfig (map trResult es) budgetAnswer).
Proof.
  assert (H : scRunM scConfig "T" None budgetStart = (budgetRun.1, Ok budgetAnswer))
    by (vm_compute; reflexivity).
  split; [exact H|].
  destruct (AgentFacts.run_exits World scCapture scGenerate scTool scWaitLoad scWaitTimeout scGoto
              scConfig "T" None budgetStart budgetRun.1 _ H) as (es & T & X & _).
  exists es. split; [exact T|exact X].
Defined.

Lemma run_state_warning_witness :
  scRunM scConfig "T" None budgetStart = (budgetRun.1, Ok budgetAnswer) /\
  exists es, trace budgetRun.1.2 = trace newAgentState ++ es /\
    forall i e, es !! i = Some e -> trStep e = (Z.of_nat i + 1)%Z.
Proof.
  assert (H : scRunM scConfig "T" None budgetStart = (budgetRun.1, Ok budgetAnswer))
    by (vm_compute; reflexivity).
  split; [exact H|].
  destruct (AgentFacts.run_state_warning World scCapture scGenerate scTool scWaitLoad scWaitTimeout
              scGoto scConfig "T" None budgetStart budgetRun.1 _ H) as (_ & es & T & P).
  exists es. split; [exact T|]. intros i e L. apply (P i e L).
Defined.

Lemma snoc_unit {A} (pre : list A) (r x : A) : pre ++ [r] = [x] -> r = x.
Proof.
  intros E. apply app_eq_unit in E as [[_ E]|[_ E]]; [injection E as ->; reflexivity|discriminate].
Qed.

(** C1: a "stop" decision with text and a click call returns its text, and
    a "done" call with an empty result returns "Task completed"; neither
    run leaves through one of the three exits as the claim words them. *)
Lemma run_exits_counterexample :
  stopRun.2 = Ok "hello" /\ map trResult (trace stopRun.1.2) = [stopWithClick] /\
  ~ claimedExit scConfig [stopWithClick] "hello" /\
  doneRun.2 = Ok "Task completed" /\ map trResult (trace doneRun.1.2) = [doneEmpty] /\
  ~ claimedExit scConfig [doneEmpty] "Task completed".
Proof.
  split; [vm_compute; reflexivity|]. split; [vm_compute; reflexivity|]. split.
  - intros [(pre & r & E & _ & _ & Hc & _)|[(pre & r & args & E & I & _)|(L & _)]].
    + symmetry in E. apply snoc_unit in E. subst r. discriminate.
    + symmetry in E. apply snoc_unit in E. subst r. destruct I as [I|[]]. discriminate.
    + discriminate.
  - split; [vm_compute; reflexivity|]. split; [vm_compute; reflexivity|].
    intros [(pre & r & E & Hf & _)|[(pre & r & args & E & I & Lk)|(L & _)]].
    + symmetry in E. apply snoc_unit in E. subst r. discriminate.
    + symmetry in E. apply snoc_unit in E. subst r. destruct I as [I|[]]. injection I as <-. discriminate.
    + discriminate.
Qed.

End Instances.

(* ------------------------------------------------------------------ *)
(** ** Concrete instances of the further properties *)

Module CodeInstances.
Import Agent RunSpec Scenarios.

Local Notation mem3 :=
  (Memory.addActionStep (Memory.addActionStep (Memory.addActionStep (Memory.create None)
     (loopAction 1 100 100)) (loopAction 2 103 98)) (loopAction 3 105 101)).
Local Notation clicks3 := [loopAction 1 100 100; loopAction 2 103 98; loopAction 3 105 101].
Local Notation clicks5 := [loopAction 1 100 100; loopAction 2 103 98; loopAction 3 105 101;
                           loopAction 4 100 100; loopAction 5 101 101].

Lemma getRecentActions_suffix_witness :
  (0 < 2)%Z /\
  exists pre, Memory.actionsOf (Memory.steps mem3) = pre ++ Memory.getRecentActions mem3 2 /\
    length (Memory.getRecentActions mem3 2) =
      Nat.min (Z.to_nat 2) (length (Memory.actionsOf (Memory.steps mem3))).
Proof. split; [lia|]. apply (MemoryFacts.getRecentActions_suffix mem3 2). lia. Defined.

Lemma getRecentActions_nonpositive_witness :
  (0 <= 0)%Z /\
  Memory.getRecentActions mem3 0 = drop (Z.to_nat (- 0)) (Memory.actionsOf (Memory.steps mem3)).
Proof. split; [lia|]. apply (MemoryFacts.getRecentActions_nonpositive mem3 0). lia. Defined.

Lemma detectLoop_last_five_witness :
  (5 <= length clicks5)%nat /\
  LoopDetector.detectLoop ([scrollAction] ++ clicks5) = LoopDetector.detectLoop clicks5.
Proof.
  assert (H : (5 <= length clicks5)%nat) by (simpl; lia).
  split; [exact H|]. exact (LoopFacts.detectLoop_last_five [scrollAction] clicks5 H).
Defined.

Lemma detectLoop_looping_witness :
  LoopDetector.isLooping (LoopDetector.detectLoop clicks3) = true /\
  (2 <= length clicks3)%nat /\
  exists a n, last clicks3 = Some a /\ (3 <= n <= 5)%Z /\
    LoopDetector.message (LoopDetector.detectLoop clicks3) =
      Some ("LOOP DETECTED: Repeated " +:+ toolName a +:+ " " +:+ showZ n +:+
            " times. Try a different approach!").
Proof.
  assert (H : LoopDetector.isLooping (LoopDetector.detectLoop clicks3) = true)
    by (vm_compute; reflexivity).
  split; [exact H|]. exact (LoopFacts.detectLoop_looping clicks3 H).
Defined.

Local Notation longText :=
  ("The quick brown fox jumps over the lazy dog and then keeps running through the forest until nightfall")%string.

Lemma wrapText_width_witness :
  Forall (fun w => w <> [] /\ Forall (fun c => Planning.isWs c = false) w)
    (Logger.splitSp (lit longText)) /\
  Forall (fun l => length l <= Logger.MAX_WIDTH) (Planning.splitNl (lit (Logger.wrapText longText))).
Proof.
  assert (H : Forall (fun w => w <> [] /\ Forall (fun c => Planning.isWs c = false) w)
                (Logger.splitSp (lit longText)))
    by (apply (bool_decide_unpack _); vm_compute; exact I).
  split; [exact H|]. exact (LoggerFacts.wrapText_width longText H).
Defined.

Local Notation longWord := (repeat "x"%char 85).

Lemma wrapText_long_word_repeats_witness :
  (lit "hello" <> [] /\ Forall (fun c => Planning.isWs c = false) (lit "hello") /\
   Logger.MAX_WIDTH < length longWord /\ Forall (fun c => Planning.isWs c = false) longWord /\
   lit "world" <> [] /\ Forall (fun c => Planning.isWs c = false) (lit "world") /\
   length (lit "hello") + 1 + length (lit "world") <= Logger.MAX_WIDTH) /\
  Logger.wrapText (string_of_list_ascii (lit "hello" ++ Logger.space :: longWord ++
                                         Logger.space :: lit "world")) =
  string_of_list_ascii (lit "hello" ++ Planning.newline ::
    (take (Logger.MAX_WIDTH - 3) longWord ++ lit "...") ++
    Planning.newline :: lit "hello" ++ Logger.space :: lit "world").
Proof.
  assert (H1 : lit "hello" <> []) by discriminate.
  assert (N1 : Forall (fun c => Planning.isWs c = false) (lit "hello")) by (apply (bool_decide_unpack _); vm_compute; exact I).
  assert (HL : Logger.MAX_WIDTH < length longWord) by (vm_compute; lia).
  assert (NL : Forall (fun c => Planning.isWs c = false) longWord) by (apply (bool_decide_unpack _); vm_compute; exact I).
  assert (H3 : lit "world" <> []) by discriminate.
  assert (N3 : Forall (fun c => Planning.isWs c = false) (lit "world")) by (apply (bool_decide_unpack _); vm_compute; exact I).
  assert (F : length (lit "hello") + 1 + length (lit "world") <= Logger.MAX_WIDTH) by (vm_compute; lia).
  split; [tauto|].
  exact (LoggerFacts.wrapText_long_word_repeats _ _ _ H1 N1 HL NL H3 N3 F).
Defined.

Local Notation reg2 :=
  (ToolRegistry.register "click" 1 (ToolRegistry.register "type" 2 ToolRegistry.create)
   : ToolRegistry.t (Tool:=nat)).

Lemma reg2_reachable : ToolRegistry.reachable reg2.
Proof. apply ToolRegistry.reach_register, ToolRegistry.reach_register, ToolRegistry.reach_create. Qed.

Lemma unregister_get_witness :
  ToolRegistry.reachable reg2 /\
  (ToolRegistry.unregister "click" reg2).1 = ToolRegistry.has "click" reg2 /\
  ToolRegistry.get "click" (ToolRegistry.unregister "click" reg2).2 = None /\
  (forall other, other <> "click" ->
     ToolRegistry.get other (ToolRegistry.unregister "click" reg2).2 = ToolRegistry.get other reg2).
Proof.
  split; [exact reg2_reachable|]. exact (RegistryFacts.unregister_get "click" reg2 reg2_reachable).
Defined.

Lemma list_register_witness :
  ToolRegistry.reachable reg2 /\
  NoDup (ToolRegistry.list reg2) /\
  ToolRegistry.list (ToolRegistry.register "type" 3 reg2) =
    if ToolRegistry.has "type" reg2 then ToolRegistry.list reg2 else ToolRegistry.list reg2 ++ ["type"].
Proof.
  split; [exact reg2_reachable|]. exact (RegistryFacts.list_register "type" 3 reg2 reg2_reachable).
Defined.

Lemma getAISDKTools_lookup_witness :
  ToolRegistry.reachable reg2 /\
  (forall name, ToolRegistry.getAISDKTools reg2 !! name =
     if String.eqb name "__proto__" then None else ToolRegistry.get name reg2).
Proof.
  split; [exact reg2_reachable|]. intros name.
  exact (RegistryFacts.getAISDKTools_lookup reg2 reg2_reachable name).
Defined.

Local Notation enterText := ("a" +:+ Agent.nl +:+ "b" +:+ Agent.nl)%string.
Local Notation enterMsg := ("Typed " +:+ dqs +:+ "a\nb\n" +:+ dqs +:+ " at (10, 20) and pressed Enter")%string.

Lemma createTypeTool_one_line_witness :
  BrowserTools.recTypeTool 50 10 20 enterText [] =
    ((BrowserTools.recTypeTool 50 10 20 enterText []).1, Ok enterMsg) /\
  ~ In Planning.newline (lit enterMsg).
Proof.
  assert (H : BrowserTools.recTypeTool 50 10 20 enterText [] =
                ((BrowserTools.recTypeTool 50 10 20 enterText []).1, Ok enterMsg))
    by (vm_compute; reflexivity).
  split; [exact H|].
  unfold BrowserTools.recTypeTool in H.
  exact (TypeToolFacts.createTypeTool_one_line _ _ _ _ _ _ _ 50 10 20 enterText [] _ enterMsg H).
Defined.

Local Notation planReply := (mkGenerateResult planningExample [] "stop" someUsage).
Local Notation planStart := ([planReply], newAgentState).
Local Notation planSc := (executePlanningPhase World scGenerate scTool sampleObs 5 "T").

Lemma executePlanningPhase_appends_witness :
  planSc planStart = ((planSc planStart).1, Ok someUsage) /\
  exists req gr, reqTools req = false /\ scGenerate req planStart.1 = ((planSc planStart).1.1, Ok gr) /\
    someUsage = usage gr /\
    (planSc planStart).1.2 = setMemory planStart.2 (Memory.addPlanningStep (memory planStart.2) 5
             (Planning.extractSection (genText gr) "FACTS")
             (Planning.extractSection (genText gr) "NEXT STEPS")).
Proof.
  assert (H : planSc planStart = ((planSc planStart).1, Ok someUsage)) by (vm_compute; reflexivity).
  split; [exact H|].
  exact (AgentFacts.executePlanningPhase_appends World scGenerate scTool sampleObs 5 "T"
           planStart _ _ H).
Defined.

Local Notation calls3 :=
  [mkToolCall "click" (clickAt 1 2); mkToolCall "click" (clickAt 3 4);
   mkToolCall "done" [("result", PStr "ok")]].
Local Notation handleStart :=
  (([] : World), setLastToolResults newAgentState {[ "click" := "Clicked" ]}).
Local Notation handleSc := (handleToolCalls World scWaitTimeout sampleObs clickOnly calls3).

Lemma handleToolCalls_records_witness :
  handleSc handleStart = ((handleSc handleStart).1, Ok (Some "ok")) /\
  exists acts,
    Memory.steps (memory (handleSc handleStart).1.2) =
      Memory.steps (memory handleStart.2) ++ map ActionS acts /\
    length acts = length (beforeDone calls3) /\
    (forall i tc, beforeDone calls3 !! i = Some tc ->
       acts !! i = Some (mkAction (stepCount handleStart.2) (tcName tc) (tcArgs tc)
         (genText clickOnly) (Some sampleObs)
         (Some (ToolResult.mk true None None (Some
            (if bool_decide (tcName tc ∈ map tcName (take i (beforeDone calls3)))
             then tcName tc +:+ " executed" else readCaptured handleStart.2 (tcName tc))))))) /\
    (forall nm, lastToolResults (handleSc handleStart).1.2 !! nm =
       if bool_decide (nm ∈ map tcName (beforeDone calls3)) then None
       else lastToolResults handleStart.2 !! nm).
Proof.
  assert (H : handleSc handleStart = ((handleSc handleStart).1, Ok (Some "ok")))
    by (vm_compute; reflexivity).
  split; [exact H|].
  exact (AgentFacts.handleToolCalls_records World scWaitTimeout sampleObs clickOnly calls3
           handleStart _ _ H).
Defined.

Local Notation scRunM := (run World scCapture scGenerate scTool scWaitLoad scWaitTimeout scGoto).
Local Notation budgetStart := ([clickOnly; clickOnly; clickOnly], newAgentState).
Local Notation budgetAnswer := "Task incomplete after 3 steps".

Lemma run_stepCount_bound_witness :
  scRunM scConfig "T" None budgetStart = (budgetRun.1, Ok budgetAnswer) /\
  ((0 <= stepCount budgetRun.1.2 <= Z.max 0 (maxSteps scConfig))%Z \/
   (exists e, (Ok budgetAnswer : Exc string) = Throw e /\ budgetRun.1.2 = budgetStart.2)).
Proof.
  assert (H : scRunM scConfig "T" None budgetStart = (budgetRun.1, Ok budgetAnswer))
    by (vm_compute; reflexivity).
  split; [exact H|].
  exact (AgentFacts.run_stepCount_bound World scCapture scGenerate scTool scWaitLoad scWaitTimeout
           scGoto scConfig "T" None budgetStart budgetRun.1 _ H).
Defined.

End CodeInstances.
